(** * pinto: project / environment lifecycle and pipeline step resolution

    A shallow embedding of [pinto/project.py] and of the [run] entry point of
    [pinto/cli.py].  Python objects that can be shared and mutated (the
    dictionaries and lists produced by [toml.load]) live in an explicit
    object store; everything the program obtains from outside -- the file
    system, the path functions of the standard library and the environment
    manager of [pinto.env] -- is reached through two interfaces. *)

From stdpp Require Import base list strings.
From Stdlib Require Import ZArith Ascii.

(** ** Python values and the object store *)

(** Immutable values are carried directly; dictionaries and lists are
    objects in the store and a value only holds a reference to them, so
    that two names for the same object see each other's updates. *)
Inductive pyval : Type :=
  | VNone
  | VBool (b : bool)
  | VInt (z : Z)
  | VScalar (lexeme : string)   (* TOML floats and date-times *)
  | VStr (s : string)
  | VRef (l : nat).

(** A dictionary keeps its insertion order, as Python's does. *)
Inductive obj : Type :=
  | ODict (d : list (string * pyval))
  | OList (xs : list pyval).

Abbreviation heap := (list obj).

Inductive exn : Type :=
  | ValueError (msg : string)
  | KeyError (key : string)
  | TypeError
  | AttributeError
  | FileNotFoundError
  | EnvironmentExecutionError (code : Z) (stderr : string)
  | ExternalError (what : string).

Definition result (A : Type) : Type := exn + A.

#[global] Instance pyval_eq_dec : EqDecision pyval.
Proof. solve_decision. Defined.

#[global] Instance exn_eq_dec : EqDecision exn.
Proof. solve_decision. Defined.

(** *** Dictionaries as ordered association lists *)

Fixpoint dict_get (d : list (string * pyval)) (k : string) : option pyval :=
  match d with
  | [] => None
  | (k', v) :: d' => if String.eqb k' k then Some v else dict_get d' k
  end.



(** *** Reading the store *)

(** [v[k]] for a string key [k]: a dictionary is looked up, every other
    kind of value refuses the subscript with a [TypeError]. *)
Definition getitem (h : heap) (v : pyval) (k : string) : result pyval :=
  match v with
  | VRef l =>
      match h !! l with
      | Some (ODict d) =>
          match dict_get d k with
          | Some x => inr x
          | None => inl (KeyError k)
          end
      | _ => inl TypeError
      end
  | _ => inl TypeError
  end.

(** [s1 in s2] on strings is the substring test. *)
Fixpoint substring_of (s1 s2 : string) : bool :=
  String.prefix s1 s2 ||
  match s2 with
  | EmptyString => false
  | String _ s2' => substring_of s1 s2'
  end.

(** [x == VStr s]: a string equals only the same string. *)
Definition str_eqb (s : string) (x : pyval) : bool :=
  match x with
  | VStr s' => String.eqb s s'
  | _ => false
  end.

(** [s in v]: keys of a dictionary, items of a list, substrings of a
    string; anything else is not a container. *)
Definition py_in (h : heap) (s : string) (v : pyval) : result bool :=
  match v with
  | VRef l =>
      match h !! l with
      | Some (ODict d) => inr (bool_decide (is_Some (dict_get d s)))
      | Some (OList xs) => inr (existsb (str_eqb s) xs)
      | None => inl TypeError
      end
  | VStr s' => inr (substring_of s s')
  | _ => inl TypeError
  end.

Fixpoint chars (s : string) : list pyval :=
  match s with
  | EmptyString => []
  | String a s' => VStr (String a EmptyString) :: chars s'
  end.

(** The items a [for] loop over [v] visits. *)
Definition py_iter (h : heap) (v : pyval) : result (list pyval) :=
  match v with
  | VRef l =>
      match h !! l with
      | Some (ODict d) => inr (map (fun kv => VStr kv.1) d)
      | Some (OList xs) => inr xs
      | None => inl TypeError
      end
  | VStr s => inr (chars s)
  | _ => inl TypeError
  end.

(** ** TOML documents and [toml.load] *)

(** What a descriptor file holds, before it becomes Python objects. *)
#[local] Unset Elimination Schemes.
Inductive toml : Type :=
  | TStr (s : string)
  | TInt (z : Z)
  | TBool (b : bool)
  | TScalar (lexeme : string)
  | TArr (items : list toml)
  | TTab (entries : list (string * toml)).
#[local] Set Elimination Schemes.

(** [toml.load] builds fresh objects for every table and array, children
    first; the object of a table or array is appended to the store after
    those of its members. *)
Fixpoint load (t : toml) (h : heap) : pyval * heap :=
  match t with
  | TStr s => (VStr s, h)
  | TInt z => (VInt z, h)
  | TBool b => (VBool b, h)
  | TScalar x => (VScalar x, h)
  | TArr items =>
      let '(vs, h1) :=
        (fix go (ts : list toml) (h : heap) : list pyval * heap :=
           match ts with
           | [] => ([], h)
           | t :: ts' =>
               let '(v, h1) := load t h in
               let '(vs, h2) := go ts' h1 in
               (v :: vs, h2)
           end) items h in
      (VRef (length h1), h1 ++ [OList vs])
  | TTab entries =>
      let '(d, h1) :=
        (fix go (es : list (string * toml)) (h : heap)
           : list (string * pyval) * heap :=
           match es with
           | [] => ([], h)
           | (k, t) :: es' =>
               let '(v, h1) := load t h in
               let '(d, h2) := go es' h1 in
               ((k, v) :: d, h2)
           end) entries h in
      (VRef (length h1), h1 ++ [ODict d])
  end.

Definition load_items : list toml -> heap -> list pyval * heap :=
  fix go (ts : list toml) (h : heap) : list pyval * heap :=
    match ts with
    | [] => ([], h)
    | t :: ts' =>
        let '(v, h1) := load t h in
        let '(vs, h2) := go ts' h1 in
        (v :: vs, h2)
    end.

Definition load_entries
  : list (string * toml) -> heap -> list (string * pyval) * heap :=
  fix go (es : list (string * toml)) (h : heap)
    : list (string * pyval) * heap :=
    match es with
    | [] => ([], h)
    | (k, t) :: es' =>
        let '(v, h1) := load t h in
        let '(d, h2) := go es' h1 in
        ((k, v) :: d, h2)
    end.

(** Lookup in a document, with the error Python would raise on the
    objects loaded from it. *)
Fixpoint toml_get (es : list (string * toml)) (k : string) : option toml :=
  match es with
  | [] => None
  | (k', t) :: es' => if String.eqb k' k then Some t else toml_get es' k
  end.

Definition tget (t : toml) (k : string) : result toml :=
  match t with
  | TTab es =>
      match toml_get es k with
      | Some t' => inr t'
      | None => inl (KeyError k)
      end
  | _ => inl TypeError
  end.

Fixpoint tpath (t : toml) (p : list string) : result toml :=
  match p with
  | [] => inr t
  | k :: p' =>
      match tget t k with
      | inr t' => tpath t' p'
      | inl e => inl e
      end
  end.

(** [repr h t v]: in store [h] the value [v] is (a reference to) objects
    holding exactly the document [t]. *)
Fixpoint repr (h : heap) (t : toml) (v : pyval) {struct t} : Prop :=
  match t with
  | TStr s => v = VStr s
  | TInt z => v = VInt z
  | TBool b => v = VBool b
  | TScalar x => v = VScalar x
  | TArr items =>
      exists l vs, v = VRef l /\ h !! l = Some (OList vs) /\
        (fix all2 (ts : list toml) (vs : list pyval) : Prop :=
           match ts, vs with
           | [], [] => True
           | t :: ts', v :: vs' => repr h t v /\ all2 ts' vs'
           | _, _ => False
           end) items vs
  | TTab entries =>
      exists l d, v = VRef l /\ h !! l = Some (ODict d) /\
        (fix all2 (es : list (string * toml)) (d : list (string * pyval))
           : Prop :=
           match es, d with
           | [], [] => True
           | (k, t) :: es', (k', v) :: d' => k = k' /\ repr h t v /\ all2 es' d'
           | _, _ => False
           end) entries d
  end.

Definition repr_items (h : heap) : list toml -> list pyval -> Prop :=
  fix all2 (ts : list toml) (vs : list pyval) : Prop :=
    match ts, vs with
    | [], [] => True
    | t :: ts', v :: vs' => repr h t v /\ all2 ts' vs'
    | _, _ => False
    end.

Definition repr_entries (h : heap)
  : list (string * toml) -> list (string * pyval) -> Prop :=
  fix all2 (es : list (string * toml)) (d : list (string * pyval)) : Prop :=
    match es, d with
    | [], [] => True
    | (k, t) :: es', (k', v) :: d' => k = k' /\ repr h t v /\ all2 es' d'
    | _, _ => False
    end.

(** The document-level counterpart of [py_in]. *)
Definition str_teqb (s : string) (t : toml) : bool :=
  match t with
  | TStr s' => String.eqb s s'
  | _ => false
  end.

Definition tin (s : string) (t : toml) : result bool :=
  match t with
  | TTab es => inr (bool_decide (is_Some (toml_get es s)))
  | TArr items => inr (existsb (str_teqb s) items)
  | TStr s' => inr (substring_of s s')
  | _ => inl TypeError
  end.

(** ** Projects, the outside world and the trace of what was done to it *)

Record ProjectBase : Type := {
  path : string;          (* the absolute path, as text *)
  _config : pyval;        (* the object [toml.load] returned *)
}.

Record Project : Type := {
  base :> ProjectBase;
  name : pyval;
}.

(** The Python and operating-system functions the code calls.  The world
    [W] stands for everything outside the interpreter. *)
Class Host (W : Type) : Type := {
  (* [os.path.abspath] *)
  abspath : string -> string;
  (* [Path.__truediv__] *)
  joinpath : string -> string -> string;
  (* [open(p)] followed by [toml.load]: the parsed top-level table, or the
     exception raised ([FileNotFoundError] when there is no such file) *)
  read_toml : string -> W -> result (list (string * toml));
}.

(** Modelled from the spec: [pinto.env.Environment], the class imported
    by [project.py] whose source is missing.  One environment per project,
    reached through the narrow capability interface of the specification:
    [exists] and [contains] are side-effect-free queries, [create] and
    [install] act on the world and may fail, [run] returns the captured
    standard output or raises. *)
Class Environment (W : Type) : Type := {
  env_exists : Project -> W -> bool;
  env_contains : Project -> W -> bool;
  env_create : Project -> W -> result unit * W;
  env_install : Project -> W -> result unit * W;
  env_run : Project -> list string -> W -> result string * W;
}.

Inductive log_record : Type :=
  | LogInstalling (p : Project)
  | LogUpdating (p : Project)
  | LogAlreadyInstalled (p : Project)
  | LogValue (v : pyval).

(** Every call that reaches the outside is recorded, in order. *)
Inductive event : Type :=
  | EvOpen (file : string)
  | EvCreate (p : Project)
  | EvInstall (p : Project)
  | EvRun (p : Project) (args : list string)
  | EvLog (r : log_record).

#[global] Instance ProjectBase_eq_dec : EqDecision ProjectBase.
Proof. solve_decision. Defined.
#[global] Instance Project_eq_dec : EqDecision Project.
Proof. solve_decision. Defined.
#[global] Instance log_record_eq_dec : EqDecision log_record.
Proof. solve_decision. Defined.
#[global] Instance event_eq_dec : EqDecision event.
Proof. solve_decision. Defined.

Record state (W : Type) : Type := mkState {
  store : heap;
  world : W;
  trace : list event;
}.
Arguments mkState {W} _ _ _.
Arguments store {W} _.
Arguments world {W} _.
Arguments trace {W} _.

(** ** The monad of the embedding: state and exceptions *)

Definition M (W A : Type) : Type := state W -> result A * state W.

Definition ret {W A} (a : A) : M W A := fun s => (inr a, s).

Definition raise {W A} (e : exn) : M W A := fun s => (inl e, s).

Definition bind {W A B} (m : M W A) (k : A -> M W B) : M W B :=
  fun s =>
    match m s with
    | (inr a, s') => k a s'
    | (inl e, s') => (inl e, s')
    end.

(** [try: m] with the outcome handed to the [except] / [else] clauses;
    what [m] did to the state before raising stays done. *)
Definition attempt {W A} (m : M W A) : M W (result A) :=
  fun s => let '(r, s') := m s in (inr r, s').

Declare Scope py_scope.
Delimit Scope py_scope with py.
Notation "x <- m ;; k" := (bind m (fun x => k))
  (at level 100, m at next level, k at level 200, right associativity)
  : py_scope.
Notation "m ;;; k" := (bind m (fun _ => k))
  (at level 100, k at level 200, right associativity) : py_scope.
Open Scope py_scope.

Definition read {W A} (f : heap -> result A) : M W A :=
  fun s => (f (store s), s).

Definition alloc {W} (o : obj) : M W pyval :=
  fun s => (inr (VRef (length (store s))),
            mkState (store s ++ [o]) (world s) (trace s)).

Definition emit {W} (e : event) : M W unit :=
  fun s => (inr tt, mkState (store s) (world s) (trace s ++ [e])).

(** A call through the [Environment] interface that changes the world. *)
Definition act {W A} (f : W -> result A * W) : M W A :=
  fun s => let '(r, w) := f (world s) in (r, mkState (store s) w (trace s)).

Definition query {W A} (f : W -> A) : M W A :=
  fun s => (inr (f (world s)), s).

(** [logging.info(...)]. *)
Definition logging_info {W} (r : log_record) : M W unit := emit (EvLog r).

(** [v.copy()]: a new object with the same members (a shallow copy);
    values without the method raise [AttributeError]. *)
Definition py_copy {W} (v : pyval) : M W pyval :=
  fun s =>
    match v with
    | VRef l =>
        match store s !! l with
        | Some o => alloc o s
        | None => (inl AttributeError, s)
        end
    | _ => (inl AttributeError, s)
    end.



Fixpoint for_each {W A} (xs : list A) (body : A -> M W unit) : M W unit :=
  match xs with
  | [] => ret tt
  | x :: xs' => body x ;;; for_each xs' body
  end.

(** ** Strings: [str.split] with a one-character separator *)

Fixpoint split (sep : ascii) (s : string) : list string :=
  match s with
  | EmptyString => [EmptyString]
  | String c s' =>
      if Ascii.eqb c sep then EmptyString :: split sep s'
      else
        match split sep s' with
        | [] => [String c EmptyString]
        | f :: fs => String c f :: fs
        end
  end.

Fixpoint join (sep : ascii) (fields : list string) : string :=
  match fields with
  | [] => EmptyString
  | [f] => f
  | f :: fs => f +:+ String sep (join sep fs)
  end.

Fixpoint has_char (c : ascii) (s : string) : bool :=
  match s with
  | EmptyString => false
  | String c' s' => Ascii.eqb c' c || has_char c s'
  end.

Definition colon : ascii := ":"%char.

(** ** The error taxonomy of the specification, as the code raises it

    Every error the code raises on purpose is a [ValueError]; the
    message tells them apart. *)

Definition MissingDescriptor (cls path config_path : string) : exn :=
  ValueError (cls +:+ " " +:+ path +:+
              " has no associated 'pyproject.toml' at location " +:+
              config_path).

Definition MissingKey_steps (config_path : string) : exn :=
  ValueError ("Config file " +:+ config_path +:+
              " has no '[tool.pinto]' table or 'steps' key in it.").

Definition MissingKey_typeo (config_path : string) : exn :=
  ValueError ("Config file " +:+ config_path +:+
              " has no '[tool.typeo]' table necessary to run projects.").

Definition StepParseError (step : string) : exn :=
  ValueError ("Can't parse pipeline step '" +:+ step +:+ "'").

(** ** [pinto/project.py] *)

Module ProjectBase.
Section methods.
Context {W : Type} `{Host W}.

(** [open(...)] and [toml.load(f)]. *)
Definition open_load (file : string) : M W pyval :=
  emit (EvOpen file) ;;;
  fun s =>
    match read_toml file (world s) with
    | inl e => (inl e, s)
    | inr entries =>
        let '(v, h) := load (TTab entries) (store s) in
        (inr v, mkState h (world s) (trace s))
    end.

Definition __post_init__ (cls : string) (path0 : string)
  : M W ProjectBase :=
  let path := abspath path0 in
  let config_path := joinpath path "pyproject.toml" in
  r <- attempt (open_load (joinpath path "pyproject.toml")) ;;
  match r with
  | inr cfg => ret {| path := path; _config := cfg |}
  | inl FileNotFoundError =>
      raise (MissingDescriptor cls path config_path)
  | inl e => raise e
  end.

(** The [config] property: [self._config.copy()]. *)
Definition config (self : ProjectBase) : M W pyval :=
  py_copy (_config self).
End methods.
End ProjectBase.

Module Project.
Section methods.
Context {W : Type} `{Host W} `{Environment W}.

Definition __post_init__ (path0 : string) : M W Project :=
  b <- ProjectBase.__post_init__ "Project" path0 ;;
  t <- read (fun h => getitem h (_config b) "tool") ;;
  p <- read (fun h => getitem h t "poetry") ;;
  n <- read (fun h => getitem h p "name") ;;
  (* [self._venv = Environment(self)]: the environment is addressed
     through the project itself *)
  ret {| base := b; name := n |}.

Definition pinto_config (self : Project) : M W pyval :=
  r <- attempt (c <- ProjectBase.config self ;;
                t <- read (fun h => getitem h c "tool") ;;
                p <- read (fun h => getitem h t "pinto") ;;
                py_copy p) ;;
  match r with
  | inr v => ret v
  | inl (KeyError _) => alloc (ODict [])
  | inl e => raise e
  end.

Definition install (self : Project) (force : bool) : M W unit :=
  ex <- query (env_exists self) ;;
  (if negb ex then
     emit (EvCreate self) ;;; act (env_create self)
   else ret tt) ;;;
  c <- query (env_contains self) ;;
  if negb c then
    logging_info (LogInstalling self) ;;;
    emit (EvInstall self) ;;; act (env_install self)
  else if force then
    logging_info (LogUpdating self) ;;;
    emit (EvInstall self) ;;; act (env_install self)
  else
    logging_info (LogAlreadyInstalled self).

Definition run (self : Project) (args : list string) : M W string :=
  ex <- query (env_exists self) ;;
  need <- (if negb ex then ret true
           else c <- query (env_contains self) ;; ret (negb c)) ;;
  (if need : bool then install self false else ret tt) ;;;
  emit (EvRun self args) ;;; act (env_run self args).
End methods.
End Project.

Module Pipeline.
Section methods.
Context {W : Type} `{Host W} `{Environment W}.

Definition steps (self : ProjectBase) : M W pyval :=
  c <- ProjectBase.config self ;;
  t <- read (fun h => getitem h c "tool") ;;
  p <- read (fun h => getitem h t "pinto") ;;
  read (fun h => getitem h p "steps").

Definition typeo_config (self : ProjectBase) : M W pyval :=
  c <- ProjectBase.config self ;;
  t <- read (fun h => getitem h c "tool") ;;
  read (fun h => getitem h t "typeo").

Definition __post_init__ (path0 : string) : M W ProjectBase :=
  self <- ProjectBase.__post_init__ "Pipeline" path0 ;;
  let config_path := joinpath (path self) "pyproject.toml" in
  r <- attempt (steps self) ;;
  match r with
  | inl (KeyError _) => raise (MissingKey_steps config_path)
  | inl e => raise e
  | inr _ => ret tt
  end ;;;
  r <- attempt (typeo_config self) ;;
  match r with
  | inl (KeyError _) => raise (MissingKey_typeo config_path)
  | inl e => raise e
  | inr _ => ret tt
  end ;;;
  ret self.

Definition create_project (self : ProjectBase) (name : string)
  : M W Project :=
  Project.__post_init__ (joinpath (path self) name).

(** The override argument built by [run_step], before it is passed on. *)
Definition typeo_arg (self : ProjectBase) (command : string)
    (subcommand : option string) : M W string :=
  let typeo_arg := path self in
  r <- attempt (tc <- typeo_config self ;;
                scripts <- read (fun h => getitem h tc "scripts") ;;
                found <- read (fun h => py_in h command scripts) ;;
                ret (if found : bool
                     then typeo_arg +:+ ":" +:+ command
                     else typeo_arg)) ;;
  match r with
  | inl (KeyError _) =>
      match subcommand with
      | Some sub => ret (typeo_arg +:+ "::" +:+ sub)
      | None => ret typeo_arg
      end
  | inl e => raise e
  | inr typeo_arg =>
      match subcommand with
      | Some sub => ret (typeo_arg +:+ ":" +:+ sub)
      | None => ret typeo_arg
      end
  end.

(** [run_step] ends without a [return] statement: its value is [None]. *)
Definition run_step (self : ProjectBase) (project : Project)
    (command : string) (subcommand : option string) : M W pyval :=
  arg <- typeo_arg self command subcommand ;;
  _ <- Project.run project [command; "--typeo"; arg] ;;
  ret VNone.
End methods.
End Pipeline.

(** ** [pinto/cli.py] *)

Module Cli.
Section run.
Context {W : Type} `{Host W} `{Environment W}.

(** Tuple unpacking of the fields.  Its [ValueError] never leaves the
    loop body (both handlers catch it), so the text of Python's message
    is abbreviated. *)

Definition unpack3 (fields : list string)
  : result (string * string * string) :=
  match fields with
  | [a; b; c] => inr (a, b, c)
  | [] | [_] | [_; _] => inl (ValueError "not enough values to unpack")
  | _ => inl (ValueError "too many values to unpack")
  end.

Definition unpack2 (fields : list string) : result (string * string) :=
  match fields with
  | [a; b] => inr (a, b)
  | [] | [_] => inl (ValueError "not enough values to unpack")
  | _ => inl (ValueError "too many values to unpack")
  end.

(** The two nested [try] blocks at the head of the loop body; [step] is
    a string here. *)
Definition parse_step (step : string)
  : result (string * string * option string) :=
  match unpack3 (split colon step) with
  | inr (component, command, subcommand) =>
      inr (component, command, Some subcommand)
  | inl (ValueError _) =>
      match unpack2 (split colon step) with
      | inr (component, command) => inr (component, command, None)
      | inl (ValueError _) => inl (StepParseError step)
      | inl e => inl e
      end
  | inl e => inl e
  end.

(** One iteration.  Only a string has a [split] method. *)
Definition run_body (pipeline : ProjectBase) (step : pyval) : M W unit :=
  match step with
  | VStr step =>
      match parse_step step with
      | inl e => raise e
      | inr (component, command, subcommand) =>
          project <- Pipeline.create_project pipeline component ;;
          stdout <- Pipeline.run_step pipeline project command subcommand ;;
          logging_info (LogValue stdout)
      end
  | _ => raise AttributeError
  end.

Definition run_steps (pipeline : ProjectBase) (steps : list pyval)
  : M W unit :=
  for_each steps (run_body pipeline).

Definition run (pipeline : string) : M W unit :=
  pipeline <- Pipeline.__post_init__ pipeline ;;
  steps <- Pipeline.steps pipeline ;;
  items <- read (fun h => py_iter h steps) ;;
  run_steps pipeline items.

(** [build]: the project is constructed, then [project.create_venv] is
    looked up.  [Project] and [ProjectBase] define [__post_init__],
    [config], [pinto_config], [venv], [install] and [run] and no other
    attribute, so the lookup raises before [force] is used. *)
Definition build (project_path : string) (force : bool) : M W unit :=
  project <- Project.__post_init__ project_path ;;
  raise AttributeError.
End run.
End Cli.

(** ** Notions used to state the properties *)

(** A table on the way down [p] has no entry for the next key. *)
Definition lacks (t : toml) (p : list string) : Prop :=
  exists k, tpath t p = inl (KeyError k).

(** Every key of [p] is found, each in a table. *)
Definition has (t : toml) (p : list string) : Prop :=
  exists t', tpath t p = inr t'.

Definition steps_path : list string := ["tool"; "pinto"; "steps"].
Definition typeo_path : list string := ["tool"; "typeo"].
Definition scripts_path : list string := ["tool"; "typeo"; "scripts"].
Definition name_path : list string := ["tool"; "poetry"; "name"].
Definition pinto_path : list string := ["tool"; "pinto"].

(** What a call added to the trace. *)
Definition events_of {W A} (m : M W A) (s : state W) : list event :=
  drop (length (trace s)) (trace (m s).2).

Definition is_install (e : event) : bool :=
  match e with EvInstall _ => true | _ => false end.

Definition installs (evs : list event) : nat :=
  length (List.filter is_install evs).

(** The descriptor files opened, in the order they were opened. *)
Definition opened (evs : list event) : list string :=
  omap (fun e => match e with EvOpen f => Some f | _ => None end) evs.

(** The descriptor file a step makes the run open: that of its
    component, when the step parses. *)
Definition descriptor_of {W} `{Host W} (pipeline : ProjectBase) (step : pyval)
  : list string :=
  match step with
  | VStr st =>
      match Cli.parse_step st with
      | inr (component, _, _) =>
          [joinpath (abspath (joinpath (path pipeline) component))
                    "pyproject.toml"]
      | inl _ => []
      end
  | _ => []
  end.

(** The four override shapes of the specification. *)
Definition four_shapes (path command : string) (subcommand : option string)
    (arg : string) : Prop :=
  arg = path \/
  arg = path +:+ ":" +:+ command \/
  (exists sub, subcommand = Some sub /\
               arg = path +:+ ":" +:+ command +:+ ":" +:+ sub) \/
  (exists sub, subcommand = Some sub /\ arg = path +:+ "::" +:+ sub).

(** Modelled from the spec: the life cycle of an [Environment] (absent,
    then existing without the project, then existing with the project
    installed), for the missing [pinto.env].  [create] on an absent
    environment succeeds and leaves the project uninstalled; [install] on
    an existing one succeeds and leaves it installed. *)
Class Lifecycle (W : Type) `{Environment W} : Prop := {
  create_absent : forall p w,
    env_exists p w = false ->
    exists w', env_create p w = (inr tt, w') /\
               env_exists p w' = true /\ env_contains p w' = false;
  install_existing : forall p w,
    env_exists p w = true ->
    exists w', env_install p w = (inr tt, w') /\
               env_exists p w' = true /\ env_contains p w' = true;
}.





(** Reading the project's own configuration object along a path. *)
Fixpoint hpath (h : heap) (v : pyval) (p : list string) : result pyval :=
  match p with
  | [] => inr v
  | k :: p' =>
      match getitem h v k with
      | inr v' => hpath h v' p'
      | inl e => inl e
      end
  end.

(** ** A small concrete world, for examples

    Modelled from the spec: a fake environment manager with the three
    life-cycle states, keyed by project path, and a file system given as a
    table of descriptor files. *)
Module Fake.
Inductive env_state : Type := Absent | Created | Installed.

Record t : Type := {
  files : list (string * list (string * toml));
  envs : list (string * env_state);
  outputs : list (string * result string);
}.

Fixpoint assoc {A} (k : string) (l : list (string * A)) : option A :=
  match l with
  | [] => None
  | (k', a) :: l' => if String.eqb k' k then Some a else assoc k l'
  end.

Definition env_state_of (p : Project) (w : t) : env_state :=
  default Absent (assoc (path p) (envs w)).

Definition set_env (p : Project) (st : env_state) (w : t) : t :=
  {| files := files w; envs := (path p, st) :: envs w;
     outputs := outputs w |}.

#[global] Instance host : Host t := {
  abspath p := p;
  joinpath a b := a +:+ "/" +:+ b;
  read_toml f w :=
    match assoc f (files w) with
    | Some es => inr es
    | None => inl FileNotFoundError
    end;
}.

#[global] Instance environment : Environment t := {
  env_exists p w :=
    match env_state_of p w with Absent => false | _ => true end;
  env_contains p w :=
    match env_state_of p w with Installed => true | _ => false end;
  env_create p w := (inr tt, set_env p Created w);
  env_install p w := (inr tt, set_env p Installed w);
  env_run p args w :=
    (match args with
     | cmd :: _ => default (inr EmptyString) (assoc cmd (outputs w))
     | [] => inr EmptyString
     end, w);
}.

Definition init (w : t) : state t := mkState [] w [].

#[global] Instance lifecycle : Lifecycle t.
Proof.
  split; intros p w _.
  - exists (set_env p Created w). cbn.
    unfold env_state_of, set_env. cbn. rewrite String.eqb_refl. cbn.
    repeat split.
  - exists (set_env p Installed w). cbn.
    unfold env_state_of, set_env. cbn. rewrite String.eqb_refl. cbn.
    repeat split.
Qed.
End Fake.

(** Concrete documents and a concrete world built from them. *)
Module Sample.
(** A pipeline with two steps and one registered script. *)
Definition pipeline_doc : list (string * toml) :=
  [("tool",
    TTab [("pinto",
           TTab [("steps", TArr [TStr "a:build"; TStr "b:test:unit"])]);
          ("typeo",
           TTab [("scripts", TTab [("train", TTab [])])])])].

(** The same pipeline whose [tool.typeo] table has no [scripts] entry. *)
Definition unscripted_doc : list (string * toml) :=
  [("tool",
    TTab [("pinto", TTab [("steps", TArr [TStr "a:build"])]);
          ("typeo", TTab [("commands", TTab [])])])].

(** A pipeline descriptor without the [tool.typeo] table. *)
Definition untyped_doc : list (string * toml) :=
  [("tool", TTab [("pinto", TTab [("steps", TArr [TStr "a:build"])])])].

Definition project_doc (n : string) : list (string * toml) :=
  [("tool", TTab [("poetry", TTab [("name", TStr n)])])].

(** A project descriptor without the identity entry. *)
Definition anonymous_doc : list (string * toml) :=
  [("tool", TTab [("poetry", TTab [("version", TStr "0.1.0")])])].

Definition world : Fake.t :=
  {| Fake.files :=
       [("/p/pyproject.toml", pipeline_doc);
        ("/p/a/pyproject.toml", project_doc "a");
        ("/p/b/pyproject.toml", project_doc "b");
        ("/q/pyproject.toml", unscripted_doc);
        ("/u/pyproject.toml", untyped_doc);
        ("/n/pyproject.toml", anonymous_doc)];
     Fake.envs := [];
     Fake.outputs := [("build", inr "built")] |}.

(** The same world, where the command [build] exits non-zero. *)
Definition failing_world : Fake.t :=
  {| Fake.files := Fake.files world;
     Fake.envs := [];
     Fake.outputs :=
       [("build", inl (EnvironmentExecutionError 1 "build failed"))] |}.

(** Project [a] and the state right after its construction in an
    empty store. *)
Definition project_a : Project :=
  {| base := {| path := "/p/a"; _config := VRef 2 |}; name := VStr "a" |}.

Definition state_a : state Fake.t :=
  mkState [ODict [("name", VStr "a")];
           ODict [("poetry", VRef 0)];
           ODict [("tool", VRef 1)]]
          world [EvOpen "/p/a/pyproject.toml"].

(** The pipeline [/p] and the state right after its construction. *)
Definition pipeline_p : ProjectBase := {| path := "/p"; _config := VRef 6 |}.

Definition state_p : state Fake.t :=
  (Pipeline.__post_init__ "/p" (Fake.init world)).2.
End Sample.

(** ** Auxiliary definitions for the proofs *)

(** Induction over documents, with the members of arrays and tables. *)
Section toml_induction.
Variable P : toml -> Prop.
Hypothesis HStr : forall s, P (TStr s).
Hypothesis HInt : forall z, P (TInt z).
Hypothesis HBool : forall b, P (TBool b).
Hypothesis HScalar : forall x, P (TScalar x).
Hypothesis HArr : forall items, Forall P items -> P (TArr items).
Hypothesis HTab : forall entries,
  Forall (fun kt => P kt.2) entries -> P (TTab entries).

Fixpoint toml_ind (t : toml) : P t :=
  match t with
  | TStr s => HStr s
  | TInt z => HInt z
  | TBool b => HBool b
  | TScalar x => HScalar x
  | TArr items =>
      HArr items
        ((fix all (ts : list toml) : Forall P ts :=
            match ts with
            | [] => @List.Forall_nil _ P
            | t :: ts' => @List.Forall_cons _ P t ts' (toml_ind t) (all ts')
            end) items)
  | TTab entries =>
      HTab entries
        ((fix all (es : list (string * toml))
            : Forall (fun kt => P kt.2) es :=
            match es with
            | [] => @List.Forall_nil _ _
            | (k, t) :: es' =>
                @List.Forall_cons _ (fun kt => P kt.2) (k, t) es'
                  (toml_ind t) (all es')
            end) entries)
  end.
End toml_induction.

(** Objects are never moved: what holds of a store holds of every store
    that keeps its objects where they are. *)
Definition keeps (h h' : heap) : Prop :=
  forall l o, h !! l = Some o -> h' !! l = Some o.

(** Reading the configuration through the [config] property, along a path. *)
Definition config_at {W} (self : ProjectBase) (p : list string) : M W pyval :=
  c <- ProjectBase.config self ;;
  read (fun h => hpath h c p).

(** ** Further notions: what a computation leaves alone *)

(** [quiet m]: [m] calls nothing outside (the world and the trace stay as
    they are) and only adds objects to the store. *)
Definition quiet {W A} (m : M W A) : Prop :=
  forall s,
    world (m s).2 = world s /\
    trace (m s).2 = trace s /\
    exists ext, store (m s).2 = store s ++ ext.

(** [opens_only file m]: the same, but for opening [file] once. *)
Definition opens_only {W A} (file : string) (m : M W A) : Prop :=
  forall s,
    world (m s).2 = world s /\
    trace (m s).2 = trace s ++ [EvOpen file] /\
    exists ext, store (m s).2 = store s ++ ext.

Definition is_create (e : event) : bool :=
  match e with EvCreate _ => true | _ => false end.

Definition creates (evs : list event) : nat :=
  length (List.filter is_create evs).

(** The commands handed to an environment, in order, with the project
    they were run for. *)
Definition ran (evs : list event) : list (Project * list string) :=
  omap (fun e => match e with EvRun p args => Some (p, args) | _ => None end)
       evs.

(** The command a step asks for, when the step parses. *)
Definition command_of (step : pyval) : list string :=
  match step with
  | VStr st =>
      match Cli.parse_step st with
      | inr (_, command, _) => [command]
      | inl _ => []
      end
  | _ => []
  end.

(** The first argument of each command that was run. *)
Definition commands (evs : list event) : list string :=
  omap (fun pa => head pa.2) (ran evs).

(** More concrete documents and worlds. *)
Module Cases.
(** A project with a [tool.pinto] table. *)
Definition configured_doc : list (string * toml) :=
  [("tool",
    TTab [("poetry", TTab [("name", TStr "c")]);
          ("pinto", TTab [("cuda", TBool true)])])].

(** A pipeline that declares no step. *)
Definition idle_doc : list (string * toml) :=
  [("tool",
    TTab [("pinto", TTab [("steps", TArr [])]);
          ("typeo", TTab [])])].

Definition world : Fake.t :=
  {| Fake.files :=
       [("/c/pyproject.toml", configured_doc);
        ("/i/pyproject.toml", idle_doc);
        ("/p/a/pyproject.toml", Sample.project_doc "a")];
     Fake.envs := [("/p/a", Fake.Installed)];
     Fake.outputs := [("build", inr "built")] |}.

Definition project_c : Project :=
  {| base := {| path := "/c"; _config := VRef 3 |}; name := VStr "c" |}.

Definition state_c : state Fake.t :=
  (Project.__post_init__ "/c" (Fake.init world)).2.

(** A world whose environment manager cannot create environments. *)
Inductive down : Type := Down.

#[global] Instance down_environment : Environment down := {
  env_exists _ _ := false;
  env_contains _ _ := false;
  env_create _ w := (inl (ExternalError "no environment tool"), w);
  env_install _ w := (inr tt, w);
  env_run _ _ w := (inr EmptyString, w);
}.
End Cases.



(** Documents in which an entry on the way to a table is not a table. *)
Module Mistyped.
(** [tool.pinto] is a string: there is no steps list. *)
Definition stringy_pinto_doc : list (string * toml) :=
  [("tool", TTab [("pinto", TStr "x"); ("typeo", TTab [])])].

(** [steps] and [typeo] are numbers: no list, no table. *)
Definition numeric_doc : list (string * toml) :=
  [("tool", TTab [("pinto", TTab [("steps", TInt 3)]); ("typeo", TInt 3)])].

(** A project whose [tool.pinto] is a number. *)
Definition numeric_pinto_doc : list (string * toml) :=
  [("tool", TTab [("poetry", TTab [("name", TStr "m")]);
                  ("pinto", TInt 3)])].

(** A project whose [tool.pinto] is an array. *)
Definition array_pinto_doc : list (string * toml) :=
  [("tool", TTab [("poetry", TTab [("name", TStr "m")]);
                  ("pinto", TArr [TInt 1; TInt 2])])].

(** [tool.poetry] is a string: there is no name under it. *)
Definition stringy_poetry_doc : list (string * toml) :=
  [("tool", TTab [("poetry", TStr "x")])].

Definition world : Fake.t :=
  {| Fake.files :=
       [("/m1/pyproject.toml", stringy_pinto_doc);
        ("/m2/pyproject.toml", numeric_doc);
        ("/m3/pyproject.toml", numeric_pinto_doc);
        ("/m4/pyproject.toml", array_pinto_doc);
        ("/m5/pyproject.toml", stringy_poetry_doc)];
     Fake.envs := [];
     Fake.outputs := [] |}.
End Mistyped.

(** Proves [repr] on a concrete store by evaluation. *)
Ltac solve_repr :=
  vm_compute; repeat (first [reflexivity | eexists | split]).

(** * Properties *)

(** ** Documents and the objects loaded from them *)

Lemma repr_TArr h items v :
  repr h (TArr items) v <->
  exists l vs, v = VRef l /\ h !! l = Some (OList vs) /\ repr_items h items vs.
Proof. reflexivity. Qed.

Lemma repr_TTab h entries v :
  repr h (TTab entries) v <->
  exists l d, v = VRef l /\ h !! l = Some (ODict d) /\ repr_entries h entries d.
Proof. reflexivity. Qed.

Lemma load_TArr items h :
  load (TArr items) h =
  let '(vs, h1) := load_items items h in (VRef (length h1), h1 ++ [OList vs]).
Proof. reflexivity. Qed.

Lemma load_TTab entries h :
  load (TTab entries) h =
  let '(d, h1) := load_entries entries h in (VRef (length h1), h1 ++ [ODict d]).
Proof. reflexivity. Qed.

Lemma keeps_refl h : keeps h h.
Proof. intros l o Hl. exact Hl. Qed.

Lemma keeps_trans h1 h2 h3 : keeps h1 h2 -> keeps h2 h3 -> keeps h1 h3.
Proof. intros H12 H23 l o Hl. apply H23, H12, Hl. Qed.

Lemma keeps_app h ext : keeps h (h ++ ext).
Proof. intros l o Hl. apply lookup_app_l_Some. exact Hl. Qed.

Lemma repr_keeps h h' t :
  keeps h h' -> forall v, repr h t v -> repr h' t v.
Proof.
  intros Hk. induction t as [s|z|b|x|items IH|entries IH] using toml_ind;
    intros v; try (cbn; tauto).
  - rewrite !repr_TArr. intros (l & vs & -> & Hl & Hvs).
    exists l, vs. split; [reflexivity|]. split; [apply Hk, Hl|].
    clear Hl. revert vs Hvs.
    induction IH as [|t ts Ht _ IHts]; intros [|v vs]; cbn; try tauto.
    intros [Hv Hvs]. split; [apply Ht, Hv | apply IHts, Hvs].
  - rewrite !repr_TTab. intros (l & d & -> & Hl & Hd).
    exists l, d. split; [reflexivity|]. split; [apply Hk, Hl|].
    clear Hl. revert d Hd.
    induction IH as [|[k t] es Ht _ IHes]; intros [|[k' v] d]; cbn; try tauto.
    intros (Hk' & Hv & Hd). split; [exact Hk'|].
    split; [apply Ht, Hv | apply IHes, Hd].
Qed.

Lemma repr_items_keeps h h' :
  keeps h h' -> forall ts vs, repr_items h ts vs -> repr_items h' ts vs.
Proof.
  intros Hk. induction ts as [|t ts IHts]; intros [|v vs]; cbn; try tauto.
  intros [Hv Hvs]. split; [eapply repr_keeps; eassumption | apply IHts, Hvs].
Qed.

Lemma repr_entries_keeps h h' :
  keeps h h' -> forall es d, repr_entries h es d -> repr_entries h' es d.
Proof.
  intros Hk. induction es as [|[k t] es IHes]; intros [|[k' v] d]; cbn;
    try tauto.
  intros (Hk' & Hv & Hd). split; [exact Hk'|].
  split; [eapply repr_keeps; eassumption | apply IHes, Hd].
Qed.

(** [toml.load] only appends to the store, and what it returns holds the
    document. *)
Lemma load_repr t :
  forall h, exists ext,
    (load t h).2 = h ++ ext /\ repr (h ++ ext) t (load t h).1.
Proof.
  induction t as [s|z|b|x|items IH|entries IH] using toml_ind; intros h;
    try (exists []; rewrite app_nil_r; cbn; split; reflexivity).
  - assert (Hitems : forall h, exists ext,
      (load_items items h).2 = h ++ ext /\
      repr_items (h ++ ext) items (load_items items h).1).
    { clear h. induction IH as [|t ts Ht _ IHts]; intros h.
      - exists []. rewrite app_nil_r. cbn. split; [reflexivity | exact I].
      - cbn. destruct (Ht h) as (e1 & He1 & Hr1).
        destruct (load t h) as [v h1] eqn:Hload. cbn in He1, Hr1. subst h1.
        destruct (IHts (h ++ e1)) as (e2 & He2 & Hr2).
        destruct (load_items ts (h ++ e1)) as [vs h2] eqn:Hgo.
        cbn in He2, Hr2. subst h2. cbn.
        exists (e1 ++ e2). rewrite app_assoc. split; [reflexivity|].
        split; [|exact Hr2].
        eapply repr_keeps; [apply keeps_app | exact Hr1]. }
    rewrite load_TArr. destruct (Hitems h) as (e & He & Hr).
    destruct (load_items items h) as [vs h1]. cbn in He, Hr. subst h1. cbn.
    exists (e ++ [OList vs]). rewrite app_assoc. split; [reflexivity|].
    apply repr_TArr. exists (length (h ++ e)), vs.
    split; [reflexivity|]. split.
    + rewrite lookup_app_r by lia. rewrite Nat.sub_diag. reflexivity.
    + eapply repr_items_keeps; [apply keeps_app | exact Hr].
  - assert (Hentries : forall h, exists ext,
      (load_entries entries h).2 = h ++ ext /\
      repr_entries (h ++ ext) entries (load_entries entries h).1).
    { clear h. induction IH as [|[k t] es Ht _ IHes]; intros h.
      - exists []. rewrite app_nil_r. cbn. split; [reflexivity | exact I].
      - cbn. cbn in Ht. destruct (Ht h) as (e1 & He1 & Hr1).
        destruct (load t h) as [v h1] eqn:Hload. cbn in He1, Hr1. subst h1.
        destruct (IHes (h ++ e1)) as (e2 & He2 & Hr2).
        destruct (load_entries es (h ++ e1)) as [d h2] eqn:Hgo.
        cbn in He2, Hr2. subst h2. cbn.
        exists (e1 ++ e2). rewrite app_assoc. split; [reflexivity|].
        split; [reflexivity|]. split; [|exact Hr2].
        eapply repr_keeps; [apply keeps_app | exact Hr1]. }
    rewrite load_TTab. destruct (Hentries h) as (e & He & Hr).
    destruct (load_entries entries h) as [d h1]. cbn in He, Hr. subst h1. cbn.
    exists (e ++ [ODict d]). rewrite app_assoc. split; [reflexivity|].
    apply repr_TTab. exists (length (h ++ e)), d.
    split; [reflexivity|]. split.
    + rewrite lookup_app_r by lia. rewrite Nat.sub_diag. reflexivity.
    + eapply repr_entries_keeps; [apply keeps_app | exact Hr].
Qed.

Lemma dict_get_repr h es d k :
  repr_entries h es d ->
  match toml_get es k with
  | Some t => exists v, dict_get d k = Some v /\ repr h t v
  | None => dict_get d k = None
  end.
Proof.
  revert d. induction es as [|[k0 t] es IHes]; intros [|[k1 v] d]; cbn;
    try tauto.
  intros (<- & Hv & Hd). destruct (String.eqb k0 k).
  - exists v. split; [reflexivity | exact Hv].
  - apply IHes, Hd.
Qed.

(** Subscripting the loaded objects behaves as lookup in the document. *)
Lemma getitem_tget h t v k :
  repr h t v ->
  match tget t k with
  | inr t' => exists v', getitem h v k = inr v' /\ repr h t' v'
  | inl e => getitem h v k = inl e
  end.
Proof.
  destruct t as [s|z|b|x|items|entries]; cbn;
    try (intros ->; reflexivity).
  - intros (l & vs & -> & Hl & _). cbn. rewrite Hl. reflexivity.
  - intros (l & d & -> & Hl & Hd). cbn. rewrite Hl.
    pose proof (dict_get_repr h entries d k Hd) as Hget.
    destruct (toml_get entries k) as [t'|].
    + destruct Hget as (v' & -> & Hv'). exists v'. split; [reflexivity|exact Hv'].
    + rewrite Hget. reflexivity.
Qed.

Lemma hpath_tpath h p : forall t v,
  repr h t v ->
  match tpath t p with
  | inr t' => exists v', hpath h v p = inr v' /\ repr h t' v'
  | inl e => hpath h v p = inl e
  end.
Proof.
  induction p as [|k p IHp]; intros t v Hr; cbn.
  - exists v. split; [reflexivity | exact Hr].
  - pose proof (getitem_tget h t v k Hr) as Hget.
    destruct (tget t k) as [e|t'].
    + rewrite Hget. reflexivity.
    + destruct Hget as (v' & -> & Hv'). apply IHp, Hv'.
Qed.

Lemma str_eqb_repr h t v s : repr h t v -> str_eqb s v = str_teqb s t.
Proof.
  destruct t; cbn; try (intros ->; reflexivity).
  - intros (l & vs & -> & _). reflexivity.
  - intros (l & d & -> & _). reflexivity.
Qed.

(** Membership in the loaded objects behaves as membership in the
    document. *)
Lemma py_in_tin h t v s : repr h t v -> py_in h s v = tin s t.
Proof.
  destruct t as [s'|z|b|x|items|entries]; cbn;
    try (intros ->; reflexivity).
  - intros (l & vs & -> & Hl & Hvs). cbn. rewrite Hl. f_equal.
    clear Hl. revert vs Hvs.
    induction items as [|t ts IHts]; intros [|v vs]; cbn; try tauto.
    intros [Hv Hvs]. rewrite (str_eqb_repr h t v s Hv), (IHts vs Hvs).
    reflexivity.
  - intros (l & d & -> & Hl & Hd). cbn. rewrite Hl. f_equal.
    pose proof (dict_get_repr h entries d s Hd) as Hget.
    destruct (toml_get entries s) as [t'|].
    + destruct Hget as (v' & -> & _). reflexivity.
    + rewrite Hget. reflexivity.
Qed.

Section accessors.
Context {W : Type} `{Host W} `{Environment W}.
Implicit Types (s : state W) (self : ProjectBase).

(** The [config] property allocates one dictionary with the members of
    the internal one and touches nothing else. *)
Lemma config_spec self s es :
  repr (store s) (TTab es) (_config self) ->
  exists d,
    ProjectBase.config self s =
      (inr (VRef (length (store s))),
       mkState (store s ++ [ODict d]) (world s) (trace s)) /\
    repr (store s ++ [ODict d]) (TTab es) (VRef (length (store s))).
Proof.
  intros Hr. destruct (proj1 (repr_TTab _ _ _) Hr) as (l & d & Hv & Hl & Hd).
  exists d. unfold ProjectBase.config, py_copy. rewrite Hv, Hl. cbn.
  split; [reflexivity|].
  exists (length (store s)), d. split; [reflexivity|]. split.
  - rewrite lookup_app_r by lia. rewrite Nat.sub_diag. reflexivity.
  - eapply repr_entries_keeps; [apply keeps_app | exact Hd].
Qed.

Lemma config_at_spec self p s es :
  repr (store s) (TTab es) (_config self) ->
  exists d,
    let s' := mkState (store s ++ [ODict d]) (world s) (trace s) in
    match tpath (TTab es) p with
    | inr t => exists v, config_at self p s = (inr v, s') /\ repr (store s') t v
    | inl e => config_at self p s = (inl e, s')
    end.
Proof.
  intros Hr. destruct (config_spec self s es Hr) as (d & Hc & Hr').
  exists d. cbv zeta. unfold config_at, bind. rewrite Hc. unfold read. cbn [store].
  pose proof (hpath_tpath _ p _ _ Hr') as Hp.
  destruct (tpath (TTab es) p) as [e|t].
  - rewrite Hp. reflexivity.
  - destruct Hp as (v & -> & Hv). exists v. split; [reflexivity | exact Hv].
Qed.

Lemma steps_config_at self s :
  Pipeline.steps self s = config_at self steps_path s.
Proof.
  unfold Pipeline.steps, config_at, bind, read.
  destruct (ProjectBase.config self s) as [[e|c] s']; [reflexivity|].
  cbn. repeat (destruct (getitem _ _ _); cbn; [reflexivity|]). reflexivity.
Qed.

Lemma typeo_config_config_at self s :
  Pipeline.typeo_config self s = config_at self typeo_path s.
Proof.
  unfold Pipeline.typeo_config, config_at, bind, read.
  destruct (ProjectBase.config self s) as [[e|c] s']; [reflexivity|].
  cbn. repeat (destruct (getitem _ _ _); cbn; [reflexivity|]). reflexivity.
Qed.
End accessors.

(** ** [Project.install] and [Project.run] *)

Section project_lifecycle.
Context {W : Type} `{Environment W}.
Implicit Types (s : state W) (self : Project).

(** The complete behaviour of [install], case by case: the outcome, the
    world and the calls made. *)
Lemma install_cases self force s :
  let w := world s in
  let after_create :=
    if env_exists self w then (inr tt, w, [])
    else let '(r, w1) := env_create self w in (r, w1, [EvCreate self]) in
  let '(r1, w1, evs1) := after_create in
  Project.install self force s =
    match r1 with
    | inl e => (inl e, mkState (store s) w1 (trace s ++ evs1))
    | inr _ =>
        if negb (env_contains self w1) then
          let '(r2, w2) := env_install self w1 in
          (r2, mkState (store s) w2
                 (trace s ++ evs1 ++
                  [EvLog (LogInstalling self); EvInstall self]))
        else if force then
          let '(r2, w2) := env_install self w1 in
          (r2, mkState (store s) w2
                 (trace s ++ evs1 ++
                  [EvLog (LogUpdating self); EvInstall self]))
        else
          (inr tt, mkState (store s) w1
                     (trace s ++ evs1 ++ [EvLog (LogAlreadyInstalled self)]))
    end.
Proof.
  destruct s as [h w t]. cbn [world store trace].
  unfold Project.install, logging_info, bind, query, act, emit, ret.
  cbn [world store trace].
  destruct (env_exists self w); cbn [negb world store trace].
  - destruct (env_contains self w); cbn [negb world store trace].
    + destruct force; cbn [world store trace].
      * destruct (env_install self w) as [r2 w2].
        rewrite <- !app_assoc. reflexivity.
      * reflexivity.
    + destruct (env_install self w) as [r2 w2].
      rewrite <- !app_assoc. reflexivity.
  - destruct (env_create self w) as [[e|[]] w1]; cbn [negb world store trace].
    + reflexivity.
    + destruct (env_contains self w1); cbn [negb world store trace].
      * destruct force; cbn [world store trace].
        -- destruct (env_install self w1) as [r2 w2].
           rewrite <- !app_assoc. reflexivity.
        -- rewrite <- !app_assoc. reflexivity.
      * destruct (env_install self w1) as [r2 w2].
        rewrite <- !app_assoc. reflexivity.
Qed.

(** C3. One call of [Project.install] calls the environment manager's
    [install] at most once, whatever the state of the environment and
    the [force] flag; on an environment that exists and already
    contains the project it is not called when [force] is false and
    called exactly once when [force] is true. *)
Theorem install_called_at_most_once self force s :
  let evs := events_of (Project.install self force) s in
  installs evs <= 1 /\
  (if env_exists self (world s) && env_contains self (world s)
   then installs evs = (if force then 1 else 0)
   else True).
Proof.
  cbv zeta. unfold events_of.
  pose proof (install_cases self force s) as Hc. cbv zeta in Hc.
  destruct (env_exists self (world s)); cbn [andb] in *.
  - rewrite Hc.
    destruct (env_contains self (world s)); cbn [negb].
    + destruct force.
      * destruct (env_install self (world s)) as [r2 w2].
        cbn [snd trace]. rewrite drop_app_length. cbn. lia.
      * cbn [snd trace]. rewrite drop_app_length. cbn. lia.
    + destruct (env_install self (world s)) as [r2 w2].
      cbn [snd trace]. rewrite drop_app_length. cbn. lia.
  - destruct (env_create self (world s)) as [[e|[]] w1]; rewrite Hc.
    + cbn [snd trace]. rewrite drop_app_length. cbn. lia.
    + destruct (env_contains self w1); cbn [negb].
      * destruct force.
        -- destruct (env_install self w1) as [r2 w2].
           cbn [snd trace]. rewrite drop_app_length. cbn. lia.
        -- cbn [snd trace]. rewrite drop_app_length. cbn. lia.
      * destruct (env_install self w1) as [r2 w2].
        cbn [snd trace]. rewrite drop_app_length. cbn. lia.
Qed.

(** [run] on an environment that is not there: [create], then
    [install], then the command, whose outcome is handed back as it is. *)
Lemma run_on_absent self args s w1 w2 :
  env_exists self (world s) = false ->
  env_create self (world s) = (inr tt, w1) ->
  env_contains self w1 = false ->
  env_install self w1 = (inr tt, w2) ->
  Project.run self args s =
    ((env_run self args w2).1,
     mkState (store s) (env_run self args w2).2
       (trace s ++ [EvCreate self; EvLog (LogInstalling self);
                    EvInstall self; EvRun self args])).
Proof.
  intros Hex Hcreate Hcontains Hinstall.
  pose proof (install_cases self false s) as Hc. cbv zeta in Hc.
  rewrite Hex, Hcreate, Hcontains, Hinstall in Hc. cbn [negb] in Hc.
  unfold Project.run, bind at 1, query at 1. rewrite Hex. cbn [negb].
  unfold bind at 1, ret at 1. unfold bind at 1. rewrite Hc.
  unfold bind, emit, act. cbn [world store trace].
  destruct (env_run self args w2) as [r w3]. cbn [fst snd].
  rewrite <- !app_assoc. reflexivity.
Qed.

(** [run] on an environment that already holds the project: the command
    only. *)
Lemma run_on_installed self args s :
  env_exists self (world s) = true ->
  env_contains self (world s) = true ->
  Project.run self args s =
    ((env_run self args (world s)).1,
     mkState (store s) (env_run self args (world s)).2
       (trace s ++ [EvRun self args])).
Proof.
  intros Hex Hcontains.
  unfold Project.run, bind, query, ret, emit, act. rewrite Hex. cbn [negb].
  rewrite Hcontains. cbn [negb world store trace].
  destruct (env_run self args (world s)) as [r w3]. reflexivity.
Qed.

(** [run] on an environment that exists without the project: [install],
    then the command. *)
Lemma run_on_uninstalled self args s w2 :
  env_exists self (world s) = true ->
  env_contains self (world s) = false ->
  env_install self (world s) = (inr tt, w2) ->
  Project.run self args s =
    ((env_run self args w2).1,
     mkState (store s) (env_run self args w2).2
       (trace s ++ [EvLog (LogInstalling self); EvInstall self;
                    EvRun self args])).
Proof.
  intros Hex Hcontains Hinstall.
  pose proof (install_cases self false s) as Hc. cbv zeta in Hc.
  rewrite Hex, Hcontains, Hinstall in Hc. cbn [negb] in Hc.
  unfold Project.run, bind at 1, query at 1. rewrite Hex. cbn [negb].
  unfold bind at 1, bind at 1, query at 1. rewrite Hcontains.
  unfold ret at 1. cbn [negb]. unfold bind at 1. rewrite Hc.
  unfold bind, emit, act. cbn [world store trace].
  destruct (env_run self args w2) as [r w3]. cbn [fst snd].
  rewrite <- !app_assoc. reflexivity.
Qed.

(** C5. On a project whose environment does not exist yet,
    [Project.run] makes exactly one [create] call, then exactly one
    [install] call, then runs the command in the environment, which by
    then exists and contains the project; what the environment's [run]
    gives -- the captured output or the exception -- is what
    [Project.run] gives. *)
Theorem run_creates_installs_then_runs `{!Lifecycle W} self args s :
  env_exists self (world s) = false ->
  exists w2,
    env_exists self w2 = true /\ env_contains self w2 = true /\
    Project.run self args s =
      ((env_run self args w2).1,
       mkState (store s) (env_run self args w2).2
         (trace s ++ [EvCreate self; EvLog (LogInstalling self);
                      EvInstall self; EvRun self args])).
Proof.
  intros Hex.
  destruct (create_absent self (world s) Hex) as (w1 & Hcreate & Hex1 & Hc1).
  destruct (install_existing self w1 Hex1) as (w2 & Hinstall & Hex2 & Hc2).
  exists w2. split; [exact Hex2|]. split; [exact Hc2|].
  apply (run_on_absent self args s w1 w2); assumption.
Qed.
End project_lifecycle.

(** ** [Pipeline.run_step] *)

Lemma tpath_app t p q :
  tpath t (p ++ q) =
  match tpath t p with
  | inr t' => tpath t' q
  | inl e => inl e
  end.
Proof.
  revert t. induction p as [|k p IHp]; intros t; cbn; [reflexivity|].
  destruct (tget t k) as [e|t']; [reflexivity | apply IHp].
Qed.

Lemma tin_error s t e : tin s t = inl e -> e = TypeError.
Proof. destruct t; cbn; congruence. Qed.

Section run_step.
Context {W : Type} `{Host W} `{Environment W}.
Implicit Types (s : state W) (self : ProjectBase).

(** The override argument, read off the pipeline's document. *)
Lemma typeo_arg_spec self command subcommand s es :
  repr (store s) (TTab es) (_config self) ->
  (Pipeline.typeo_arg self command subcommand s).1 =
    match tpath (TTab es) scripts_path with
    | inr scripts =>
        match tin command scripts with
        | inr found =>
            let arg := if found then path self +:+ ":" +:+ command
                       else path self in
            inr match subcommand with
                | Some sub => arg +:+ ":" +:+ sub
                | None => arg
                end
        | inl e => inl e
        end
    | inl (KeyError _) =>
        inr match subcommand with
            | Some sub => path self +:+ "::" +:+ sub
            | None => path self
            end
    | inl e => inl e
    end.
Proof.
  intros Hr.
  change scripts_path with (typeo_path ++ ["scripts"]).
  rewrite tpath_app.
  destruct (config_at_spec self typeo_path s es Hr) as (d & Hd).
  cbv zeta in Hd.
  unfold Pipeline.typeo_arg, bind at 1, attempt, bind at 1.
  rewrite typeo_config_config_at.
  destruct (tpath (TTab es) typeo_path) as [e|tc].
  - rewrite Hd. destruct e, subcommand; reflexivity.
  - destruct Hd as (v & -> & Hv). cbn [store] in Hv.
    unfold bind at 1, read at 1. cbn [store].
    pose proof (getitem_tget _ tc v "scripts" Hv) as Hget.
    cbn [tpath].
    destruct (tget tc "scripts") as [e|scripts].
    + rewrite Hget. destruct e, subcommand; reflexivity.
    + destruct Hget as (v' & -> & Hv').
      unfold bind at 1, read at 1. cbn [store].
      rewrite (py_in_tin _ scripts v' command Hv').
      destruct (tin command scripts) as [e|found] eqn:Hin.
      * apply tin_error in Hin. subst e. reflexivity.
      * destruct found, subcommand; reflexivity.
Qed.
End run_step.

Section run_step_claims.
Context {W : Type} `{Host W} `{Environment W}.
Implicit Types (s : state W) (self : ProjectBase).

(** C1 (amended). The override argument [run_step] builds, for a
    pipeline whose configuration holds the document [es]:
    - when [tool.typeo.scripts] is there and lists the command:
      [<path>:<command>], or [<path>:<command>:<subcommand>] with a
      subcommand;
    - when [tool.typeo.scripts] is there and does not list the command:
      [<path>], or [<path>:<subcommand>] with a subcommand;
    - when [tool.typeo] has no [scripts] entry (or is itself missing):
      [<path>], or [<path>::<subcommand>] with a subcommand.
    An entry that cannot be searched or subscripted raises. *)
Theorem run_step_override_argument self command subcommand s es :
  repr (store s) (TTab es) (_config self) ->
  let r := (Pipeline.typeo_arg self command subcommand s).1 in
  let p := path self in
  match tpath (TTab es) scripts_path with
  | inr scripts =>
      match tin command scripts, subcommand with
      | inr true, None => r = inr (p +:+ ":" +:+ command)
      | inr true, Some sub => r = inr ((p +:+ ":" +:+ command) +:+ ":" +:+ sub)
      | inr false, None => r = inr p
      | inr false, Some sub => r = inr (p +:+ ":" +:+ sub)
      | inl e, _ => r = inl e
      end
  | inl (KeyError _) =>
      match subcommand with
      | None => r = inr p
      | Some sub => r = inr (p +:+ "::" +:+ sub)
      end
  | inl e => r = inl e
  end.
Proof.
  intros Hr. cbv zeta. rewrite (typeo_arg_spec self command subcommand s es Hr).
  destruct (tpath (TTab es) scripts_path) as [e|scripts].
  - destruct e, subcommand; reflexivity.
  - destruct (tin command scripts) as [e|[]], subcommand; reflexivity.
Qed.

(** [run_step] hands the command, the flag and the override argument to
    the sub-project's [run], and gives back [None] whatever that call
    returned. *)
Lemma run_step_returns_none self project command subcommand s :
  match (Pipeline.run_step self project command subcommand s).1 with
  | inr v => v = VNone
  | inl _ => True
  end.
Proof.
  unfold Pipeline.run_step, bind.
  destruct (Pipeline.typeo_arg self command subcommand s) as [[e|arg] s1];
    [exact I|].
  destruct (Project.run project [command; "--typeo"; arg] s1) as [[e|out] s2];
    [exact I | reflexivity].
Qed.

Lemma run_step_delegates self project command subcommand s arg s1 :
  Pipeline.typeo_arg self command subcommand s = (inr arg, s1) ->
  (Pipeline.run_step self project command subcommand s).2 =
    (Project.run project [command; "--typeo"; arg] s1).2.
Proof.
  intros Harg. unfold Pipeline.run_step, bind. rewrite Harg.
  destruct (Project.run project [command; "--typeo"; arg] s1) as [[e|out] s2];
    reflexivity.
Qed.
End run_step_claims.

(** C1 (as stated) fails: with [train] the only registered script, the
    unregistered command [lint] and the subcommand [strict] give
    [/p:strict], which is none of the four shapes, and in particular not
    [/p::strict]. *)
Lemma run_step_unregistered_with_scripts_table :
  let r := ((p <- Pipeline.__post_init__ "/p" ;;
             Pipeline.typeo_arg p "lint" (Some "strict"))
              (Fake.init Sample.world)).1 in
  tpath (TTab Sample.pipeline_doc) scripts_path
    = inr (TTab [("train", TTab [])]) /\
  tin "lint" (TTab [("train", TTab [])]) = inr false /\
  r = inr "/p:strict" /\
  ~ four_shapes "/p" "lint" (Some "strict") "/p:strict" /\
  r <> inr "/p::strict".
Proof.
  cbv zeta. split; [reflexivity|]. split; [reflexivity|].
  split; [reflexivity|]. split.
  - unfold four_shapes.
    intros [Heq|[Heq|[(sub & Hsub & Heq)|(sub & Hsub & Heq)]]].
    + discriminate Heq.
    + vm_compute in Heq. discriminate Heq.
    + injection Hsub as <-. vm_compute in Heq. discriminate Heq.
    + injection Hsub as <-. vm_compute in Heq. discriminate Heq.
  - vm_compute. discriminate.
Qed.

(** C2 (code at the failing input). The environment prints [built] for
    the command [build]; [run_step] calls it with the command, the flag
    and the override argument, and returns [None]. *)
Lemma run_step_drops_stdout :
  let s0 := Fake.init Sample.world in
  let prog :=
    (p <- Pipeline.__post_init__ "/p" ;;
     a <- Pipeline.create_project p "a" ;;
     out <- Pipeline.run_step p a "build" None ;;
     ret (a, out)) in
  exists a s1,
    prog s0 = (inr (a, VNone), s1) /\
    last (trace s1) = Some (EvRun a ["build"; "--typeo"; "/p"]) /\
    (env_run a ["build"; "--typeo"; "/p"] (world s1)).1 = inr "built".
Proof.
  cbv zeta. eexists. eexists. split; [vm_compute; reflexivity|].
  split; reflexivity.
Qed.

(** ** Parsing a step *)

Lemma split_not_nil sep s : split sep s <> [].
Proof.
  destruct s as [|c s]; cbn; [discriminate|].
  destruct (Ascii.eqb c sep); [discriminate|].
  destruct (split sep s); discriminate.
Qed.

Lemma split_no_sep sep f : has_char sep f = false -> split sep f = [f].
Proof.
  induction f as [|c f IHf]; cbn; [reflexivity|].
  intros Hc. apply orb_false_iff in Hc as [Hc Hf].
  rewrite Hc, (IHf Hf). reflexivity.
Qed.

Lemma split_field_sep sep f rest :
  has_char sep f = false ->
  split sep (f +:+ String sep rest) = f :: split sep rest.
Proof.
  induction f as [|c f IHf].
  - intros _. change ("" +:+ String sep rest) with (String sep rest).
    cbn. rewrite Ascii.eqb_refl. reflexivity.
  - intros Hc. cbn in Hc. apply orb_false_iff in Hc as [Hc Hf].
    change (String c f +:+ String sep rest)
      with (String c (f +:+ String sep rest)).
    cbn [split]. rewrite Hc, (IHf Hf). reflexivity.
Qed.

(** Splitting recovers the fields that were joined. *)
Lemma split_join sep fields :
  fields <> [] ->
  Forall (fun f => has_char sep f = false) fields ->
  split sep (join sep fields) = fields.
Proof.
  induction fields as [|f fs IHfs]; [congruence|].
  intros _ Hall. inversion Hall as [|? ? Hf Hfs]; subst.
  destruct fs as [|g fs].
  - cbn. apply split_no_sep, Hf.
  - change (join sep (f :: g :: fs)) with (f +:+ String sep (join sep (g :: fs))).
    rewrite (split_field_sep sep f _ Hf), IHfs; [reflexivity|discriminate|exact Hfs].
Qed.

(** C4 (amended). A step is accepted exactly when splitting it on [:]
    gives two or three fields, empty or not, and these fields are the
    component, the command and the subcommand; with any other number of
    fields parsing fails with the error that quotes the step. *)
Theorem parse_step_by_field_count step :
  match split colon step with
  | [component; command] =>
      Cli.parse_step step = inr (component, command, None)
  | [component; command; subcommand] =>
      Cli.parse_step step = inr (component, command, Some subcommand)
  | _ =>
      Cli.parse_step step =
        inl (ValueError ("Can't parse pipeline step '" +:+ step +:+ "'"))
  end.
Proof.
  unfold Cli.parse_step.
  destruct (split colon step) as [|a [|b [|c [|d l]]]]; reflexivity.
Qed.

(** X14. Two or three colon-free fields joined by colons parse back to
    themselves. *)
Lemma parse_step_join component command subcommand :
  Forall (fun f => has_char colon f = false)
         (component :: command :: option_list subcommand) ->
  Cli.parse_step (join colon (component :: command :: option_list subcommand))
    = inr (component, command, subcommand).
Proof.
  intros Hall. unfold Cli.parse_step.
  rewrite split_join; [|discriminate|exact Hall].
  destruct subcommand; reflexivity.
Qed.

(** C4 (as stated) fails: a step with an empty field is accepted. *)
Lemma parse_step_accepts_empty_field :
  split colon "a:" = ["a"; ""] /\
  Cli.parse_step "a:" = inr ("a", "", None).
Proof. split; reflexivity. Qed.

(** ** Construction *)

Section construction.
Context {W : Type} `{Host W} `{Environment W}.
Implicit Types (s : state W).

(** With a descriptor file in place, [ProjectBase.__post_init__] opens
    it once and keeps the loaded objects, which hold its document. *)
Lemma post_init_loaded cls path0 s es :
  let file := joinpath (abspath path0) "pyproject.toml" in
  read_toml file (world s) = inr es ->
  exists ext v,
    ProjectBase.__post_init__ cls path0 s =
      (inr {| path := abspath path0; _config := v |},
       mkState (store s ++ ext) (world s) (trace s ++ [EvOpen file])) /\
    repr (store s ++ ext) (TTab es) v.
Proof.
  cbv zeta. intros Hread.
  destruct (load_repr (TTab es) (store s)) as (ext & Hext & Hrepr).
  exists ext, (load (TTab es) (store s)).1.
  split; [|exact Hrepr].
  unfold ProjectBase.__post_init__, ProjectBase.open_load,
    bind, attempt, emit, ret.
  cbn [world store trace]. rewrite Hread.
  destruct (load (TTab es) (store s)) as [v h]. cbn in Hext. subst h.
  reflexivity.
Qed.

(** Without one, it raises the error that names the expected file. *)
Lemma post_init_missing cls path0 s :
  let file := joinpath (abspath path0) "pyproject.toml" in
  read_toml file (world s) = inl FileNotFoundError ->
  ProjectBase.__post_init__ cls path0 s =
    (inl (MissingDescriptor cls (abspath path0) file),
     mkState (store s) (world s) (trace s ++ [EvOpen file])).
Proof.
  cbv zeta. intros Hread.
  unfold ProjectBase.__post_init__, ProjectBase.open_load,
    bind, attempt, emit, ret, raise.
  cbn [world store trace]. rewrite Hread. reflexivity.
Qed.

(** [Project.__post_init__] reads the name straight from the loaded
    objects. *)
Lemma project_init_spec path0 s es :
  let file := joinpath (abspath path0) "pyproject.toml" in
  read_toml file (world s) = inr es ->
  exists ext v,
    let s' := mkState (store s ++ ext) (world s) (trace s ++ [EvOpen file]) in
    repr (store s ++ ext) (TTab es) v /\
    match tpath (TTab es) name_path with
    | inr t =>
        exists n,
          Project.__post_init__ path0 s =
            (inr {| base := {| path := abspath path0; _config := v |};
                    name := n |}, s') /\
          repr (store s ++ ext) t n
    | inl e => Project.__post_init__ path0 s = (inl e, s')
    end.
Proof.
  cbv zeta. intros Hread.
  destruct (post_init_loaded "Project" path0 s es Hread)
    as (ext & v & Hinit & Hrepr).
  exists ext, v. split; [exact Hrepr|].
  remember (Project.__post_init__ path0 s) as res eqn:Hres.
  unfold Project.__post_init__, bind at 1 in Hres. rewrite Hinit in Hres.
  cbn [_config] in Hres. unfold name_path. cbn [tpath].
  unfold bind at 1, read at 1 in Hres. cbn [store] in Hres.
  pose proof (getitem_tget _ _ _ "tool" Hrepr) as H1.
  destruct (tget (TTab es) "tool") as [e|t1];
    [rewrite H1 in Hres; exact Hres|].
  destruct H1 as (v1 & Hg1 & Hr1). rewrite Hg1 in Hres.
  unfold bind at 1, read at 1 in Hres. cbn [store] in Hres.
  pose proof (getitem_tget _ _ _ "poetry" Hr1) as H2.
  destruct (tget t1 "poetry") as [e|t2];
    [rewrite H2 in Hres; exact Hres|].
  destruct H2 as (v2 & Hg2 & Hr2). rewrite Hg2 in Hres.
  unfold bind at 1, read at 1 in Hres. cbn [store] in Hres.
  pose proof (getitem_tget _ _ _ "name" Hr2) as H3.
  destruct (tget t2 "name") as [e|t3];
    [rewrite H3 in Hres; exact Hres|].
  destruct H3 as (v3 & Hg3 & Hr3). rewrite Hg3 in Hres.
  exists v3. split; [exact Hres | exact Hr3].
Qed.

(** The whole of [Pipeline.__post_init__] on an existing descriptor:
    the two lookups in turn, a [KeyError] of either turned into the
    error that names the table. *)
Lemma pipeline_init_spec path0 s es :
  let file := joinpath (abspath path0) "pyproject.toml" in
  read_toml file (world s) = inr es ->
  match tpath (TTab es) steps_path with
  | inl (KeyError _) =>
      (Pipeline.__post_init__ path0 s).1 = inl (MissingKey_steps file)
  | inl e => (Pipeline.__post_init__ path0 s).1 = inl e
  | inr _ =>
      match tpath (TTab es) typeo_path with
      | inl (KeyError _) =>
          (Pipeline.__post_init__ path0 s).1 = inl (MissingKey_typeo file)
      | inl e => (Pipeline.__post_init__ path0 s).1 = inl e
      | inr _ =>
          exists v s',
            Pipeline.__post_init__ path0 s =
              (inr {| path := abspath path0; _config := v |}, s') /\
            repr (store s') (TTab es) v /\
            keeps (store s) (store s') /\
            world s' = world s /\
            trace s' = trace s ++ [EvOpen file]
      end
  end.
Proof.
  cbv zeta. intros Hread.
  destruct (post_init_loaded "Pipeline" path0 s es Hread)
    as (ext & v & Hinit & Hrepr).
  remember (Pipeline.__post_init__ path0 s) as res eqn:Hres.
  unfold Pipeline.__post_init__, bind at 1 in Hres. rewrite Hinit in Hres.
  set (self := {| path := abspath path0; _config := v |}) in *.
  set (s1 := mkState (store s ++ ext) (world s) _) in *.
  destruct (config_at_spec self steps_path s1 es Hrepr) as (d1 & H1).
  cbv zeta in H1.
  unfold bind at 1, attempt at 1 in Hres. rewrite steps_config_at in Hres.
  destruct (tpath (TTab es) steps_path) as [e|t1].
  { rewrite H1 in Hres. rewrite Hres. destruct e; reflexivity. }
  destruct H1 as (v1 & Hs1 & _). rewrite Hs1 in Hres.
  set (s2 := mkState (store s1 ++ [ODict d1]) (world s1) (trace s1)) in *.
  assert (Hrepr2 : repr (store s2) (TTab es) (_config self)).
  { eapply repr_keeps; [apply keeps_app | exact Hrepr]. }
  destruct (config_at_spec self typeo_path s2 es Hrepr2) as (d2 & H2).
  cbv zeta in H2.
  unfold bind at 1, ret at 1 in Hres.
  unfold bind at 1, bind at 1, attempt at 1 in Hres.
  rewrite typeo_config_config_at in Hres.
  destruct (tpath (TTab es) typeo_path) as [e|t2].
  { rewrite H2 in Hres. rewrite Hres. destruct e; reflexivity. }
  destruct H2 as (v2 & Hs2 & _). rewrite Hs2 in Hres.
  eexists v, _. split; [exact Hres|]. cbn [store world trace].
  split; [|split; [|split; reflexivity]].
  - eapply repr_keeps; [|exact Hrepr].
    eapply keeps_trans; apply keeps_app.
  - eapply keeps_trans; [|apply keeps_app].
    eapply keeps_trans; apply keeps_app.
Qed.
End construction.

Section configuration_tables.
Context {W : Type} `{Host W} `{Environment W}.
Implicit Types (s : state W).

(** C7 (amended). Over an existing descriptor, constructing a [Pipeline]
    fails with the error naming [tool.pinto] / [steps] when a table on the
    way to [tool.pinto.steps] has no entry for the next key, and with the
    error naming [tool.typeo] when the steps entry is there and [tool] has
    no [typeo] entry.  It succeeds exactly when there is an entry at
    [tool.pinto.steps] and one at [tool.typeo], whatever these entries
    are.  An entry on the way that is there but is not a table is not
    a missing key: the [TypeError] of subscripting it is the outcome. *)
Theorem pipeline_requires_steps_and_typeo path0 s es :
  read_toml (joinpath (abspath path0) "pyproject.toml") (world s) = inr es ->
  let file := joinpath (abspath path0) "pyproject.toml" in
  let r := (Pipeline.__post_init__ path0 s).1 in
  (lacks (TTab es) steps_path -> r = inl (MissingKey_steps file)) /\
  (has (TTab es) steps_path -> lacks (TTab es) typeo_path ->
   r = inl (MissingKey_typeo file)) /\
  ((exists self, r = inr self) <->
   has (TTab es) steps_path /\ has (TTab es) typeo_path) /\
  (tpath (TTab es) steps_path = inl TypeError -> r = inl TypeError) /\
  (has (TTab es) steps_path -> tpath (TTab es) typeo_path = inl TypeError ->
   r = inl TypeError).
Proof.
  intros Hread. cbv zeta.
  pose proof (pipeline_init_spec path0 s es Hread) as Hspec.
  cbv zeta in Hspec. unfold lacks, has.
  destruct (tpath (TTab es) steps_path) as [e1|t1].
  - split; [|split; [|split; [|split]]].
    + intros [k Hk]. injection Hk as ->. exact Hspec.
    + intros [t Ht]. discriminate Ht.
    + split.
      * intros [self Hself]. destruct e1; rewrite Hspec in Hself;
          discriminate Hself.
      * intros [[t Ht] _]. discriminate Ht.
    + intros [= ->]. exact Hspec.
    + intros [t Ht]. discriminate Ht.
  - destruct (tpath (TTab es) typeo_path) as [e2|t2].
    + split; [|split; [|split; [|split]]].
      * intros [k Hk]. discriminate Hk.
      * intros _ [k Hk]. injection Hk as ->. exact Hspec.
      * split.
        -- intros [self Hself]. destruct e2; rewrite Hspec in Hself;
             discriminate Hself.
        -- intros [_ [t Ht]]. discriminate Ht.
      * intros Ht. discriminate Ht.
      * intros _ [= ->]. exact Hspec.
    + destruct Hspec as (v & s' & Hinit & _).
      split; [|split; [|split; [|split]]].
      * intros [k Hk]. discriminate Hk.
      * intros _ [k Hk]. discriminate Hk.
      * split.
        -- intros _. split; eexists; reflexivity.
        -- intros _. eexists. rewrite Hinit. reflexivity.
      * intros Ht. discriminate Ht.
      * intros _ Ht. discriminate Ht.
Qed.

(** With no [tool.pinto] table in the document, the [KeyError] of the
    lookup is caught and a new empty dictionary is returned. *)
Lemma pinto_config_default (self : Project) s es :
  repr (store s) (TTab es) (_config self) ->
  lacks (TTab es) pinto_path ->
  exists d,
    Project.pinto_config self s =
      (inr (VRef (S (length (store s)))),
       mkState (store s ++ [ODict d; ODict []]) (world s) (trace s)).
Proof.
  intros Hr [k Hk].
  destruct (config_spec self s es Hr) as (d & Hc & Hr').
  exists d. unfold Project.pinto_config.
  unfold bind at 1, attempt at 1, bind at 1. rewrite Hc.
  unfold bind at 1, read at 1. cbn [store].
  unfold pinto_path in Hk. cbn [tpath] in Hk.
  pose proof (getitem_tget _ _ _ "tool" Hr') as H1.
  destruct (tget (TTab es) "tool") as [e|t1].
  - injection Hk as ->. rewrite H1. unfold alloc. cbn [store world trace].
    rewrite length_app, <- app_assoc. cbn. rewrite Nat.add_1_r. reflexivity.
  - destruct H1 as (v1 & -> & Hr1).
    unfold bind at 1, read at 1. cbn [store].
    pose proof (getitem_tget _ _ _ "pinto" Hr1) as H2.
    destruct (tget t1 "pinto") as [e|t2]; [|discriminate Hk].
    injection Hk as ->. rewrite H2. unfold alloc. cbn [store world trace].
    rewrite length_app, <- app_assoc. cbn. rewrite Nat.add_1_r. reflexivity.
Qed.

End configuration_tables.

(** ** The [config] property and mutation by callers *)

Section config_copy.
Context {W : Type}.
Implicit Types (s : state W).



End config_copy.


(** ** The pipeline run *)

Section pipeline_run.
Context {W : Type} `{Host W} `{Environment W}.
Implicit Types (s : state W) (pipeline : ProjectBase).



Lemma opened_app evs1 evs2 :
  opened (evs1 ++ evs2) = opened evs1 ++ opened evs2.
Proof. apply omap_app. Qed.

Lemma trace_project_init path0 s :
  trace (Project.__post_init__ path0 s).2 =
    trace s ++ [EvOpen (joinpath (abspath path0) "pyproject.toml")].
Proof.
  unfold Project.__post_init__, ProjectBase.__post_init__,
    ProjectBase.open_load, bind, attempt, emit, read, ret, raise.
  cbn [world store trace].
  destruct (read_toml _ (world s)) as [e|es].
  - destruct e; reflexivity.
  - destruct (load (TTab es) (store s)) as [v h]. cbn.
    repeat (destruct (getitem _ _ _); cbn; [reflexivity|]). reflexivity.
Qed.

Lemma trace_config (self : ProjectBase) s :
  trace (ProjectBase.config self s).2 = trace s.
Proof.
  unfold ProjectBase.config, py_copy, alloc.
  destruct (_config self); try reflexivity.
  destruct (store s !! l); reflexivity.
Qed.

Lemma trace_typeo_arg (self : ProjectBase) command subcommand s :
  trace (Pipeline.typeo_arg self command subcommand s).2 = trace s.
Proof.
  unfold Pipeline.typeo_arg, Pipeline.typeo_config, bind, attempt, read,
    ret, raise.
  pose proof (trace_config self s) as Hc.
  destruct (ProjectBase.config self s) as [[e|c] s1]; cbn in Hc |- *.
  - destruct e, subcommand; exact Hc.
  - repeat (destruct (getitem _ _ _) as [[]|];
            [destruct subcommand; exact Hc ..|]).
    destruct (py_in _ _ _) as [[]|];
      destruct subcommand; exact Hc.
Qed.

Lemma trace_project_run (p : Project) args s :
  exists evs,
    trace (Project.run p args s).2 = trace s ++ evs /\ opened evs = [].
Proof.
  pose proof (install_cases p false s) as Hc. cbv zeta in Hc.
  unfold Project.run, bind, query, ret, emit, act.
  destruct (env_exists p (world s)); cbn [negb] in *.
  - destruct (env_contains p (world s)); cbn [negb world store trace] in *.
    + destruct (env_run p args (world s)) as [r w].
      eexists. split; reflexivity.
    + rewrite Hc. destruct (env_install p (world s)) as [[e|[]] w2].
      * eexists. split; reflexivity.
      * cbn [world store trace].
        destruct (env_run p args w2) as [r w].
        eexists. cbn [snd trace]. rewrite <- !app_assoc.
        split; reflexivity.
  - destruct (env_create p (world s)) as [[e|[]] w1]; rewrite Hc.
    + eexists. split; reflexivity.
    + destruct (env_contains p w1); cbn [negb].
      * cbn [world store trace].
        destruct (env_run p args w1) as [r w].
        eexists. cbn [snd trace]. rewrite <- !app_assoc.
        split; reflexivity.
      * destruct (env_install p w1) as [[e|[]] w2].
        -- eexists. split; reflexivity.
        -- cbn [world store trace].
           destruct (env_run p args w2) as [r w].
           eexists. cbn [snd trace]. rewrite <- !app_assoc.
           split; reflexivity.
Qed.

(** One iteration opens the descriptor of its step's component and no
    other file. *)
Lemma trace_run_body pipeline step s :
  exists evs,
    trace (Cli.run_body pipeline step s).2 = trace s ++ evs /\
    opened evs = descriptor_of pipeline step.
Proof.
  unfold Cli.run_body, descriptor_of.
  destruct step as [| | | |st|]; try (exists []; rewrite app_nil_r; split; reflexivity).
  destruct (Cli.parse_step st) as [e|[[component command] subcommand]].
  { exists []. rewrite app_nil_r. split; reflexivity. }
  unfold bind at 1, Pipeline.create_project.
  pose proof (trace_project_init (joinpath (path pipeline) component) s)
    as Hinit.
  destruct (Project.__post_init__ _ s) as [[e|project] s1]; cbn in Hinit.
  { eexists. split; [exact Hinit | reflexivity]. }
  unfold bind at 1, Pipeline.run_step, bind at 1.
  pose proof (trace_typeo_arg pipeline command subcommand s1) as Harg.
  destruct (Pipeline.typeo_arg pipeline command subcommand s1)
    as [[e|arg] s2]; cbn in Harg.
  { eexists. cbn. rewrite Harg. split; [exact Hinit | reflexivity]. }
  unfold bind at 1.
  destruct (trace_project_run project [command; "--typeo"; arg] s2)
    as (evs & Hrun & Hopened).
  destruct (Project.run project _ s2) as [[e|out] s3]; cbn in Hrun.
  - exists ([EvOpen (joinpath (abspath (joinpath (path pipeline) component))
                              "pyproject.toml")] ++ evs).
    cbn [snd]. rewrite Hrun, Harg, Hinit, <- app_assoc.
    split; [reflexivity|]. rewrite opened_app, Hopened. reflexivity.
  - exists ([EvOpen (joinpath (abspath (joinpath (path pipeline) component))
                              "pyproject.toml")] ++ evs ++
            [EvLog (LogValue VNone)]).
    unfold ret, logging_info, emit. cbn [snd trace].
    rewrite Hrun, Harg, Hinit, <- !app_assoc.
    split; [reflexivity|]. rewrite !opened_app, Hopened. reflexivity.
Qed.

(** The descriptor files opened by a run are those of the steps it
    began, in the declared order: all of them when it succeeds. *)
Lemma run_steps_opens_in_declared_order pipeline steps :
  forall s, exists n evs,
    n <= length steps /\
    trace (Cli.run_steps pipeline steps s).2 = trace s ++ evs /\
    opened evs = concat (map (descriptor_of pipeline) (take n steps)) /\
    (forall s', Cli.run_steps pipeline steps s = (inr tt, s') ->
                n = length steps).
Proof.
  induction steps as [|step steps IHsteps]; intros s.
  - exists 0, []. rewrite app_nil_r. cbn. repeat split; lia.
  - destruct (trace_run_body pipeline step s) as (evs1 & Ht1 & Ho1).
    unfold Cli.run_steps in *. cbn [for_each]. unfold bind at 1 2.
    destruct (Cli.run_body pipeline step s) as [[e|[]] s1]; cbn in Ht1.
    + exists 1, evs1. cbn [snd length take map concat].
      rewrite take_0. cbn. rewrite app_nil_r.
      split; [lia|]. split; [exact Ht1|]. split; [exact Ho1|].
      intros s' Heq. discriminate Heq.
    + destruct (IHsteps s1) as (n & evs & Hn & Ht & Ho & Hall).
      exists (S n), (evs1 ++ evs). cbn [length take map concat].
      split; [lia|]. split; [rewrite Ht, Ht1, app_assoc; reflexivity|].
      split.
      * rewrite opened_app, Ho1, Ho. reflexivity.
      * intros s' Heq. f_equal. eapply Hall, Heq.
Qed.

End pipeline_run.

(** The two-step pipeline of the specification, with a [build] command
    that exits non-zero: the failure of step [a:build] ends the run, and
    the descriptor of [b] is never opened. *)
Lemma run_stops_at_first_failure :
  let '(r, s) := Cli.run "/p" (Fake.init Sample.failing_world) in
  r = inl (EnvironmentExecutionError 1 "build failed") /\
  opened (trace s) = ["/p/pyproject.toml"; "/p/a/pyproject.toml"].
Proof. vm_compute. split; reflexivity. Qed.

(** With commands that succeed both sub-projects are resolved, in the
    declared order. *)
Lemma run_resolves_in_declared_order :
  let '(r, s) := Cli.run "/p" (Fake.init Sample.world) in
  r = inr tt /\
  opened (trace s) =
    ["/p/pyproject.toml"; "/p/a/pyproject.toml"; "/p/b/pyproject.toml"].
Proof. vm_compute. split; reflexivity. Qed.

(** ** The theorems at concrete inputs *)

Lemma run_step_override_argument_witness :
  repr (store Sample.state_p) (TTab Sample.pipeline_doc)
       (_config Sample.pipeline_p) /\
  (Pipeline.typeo_arg Sample.pipeline_p "train" (Some "fast")
     Sample.state_p).1 = inr "/p:train:fast".
Proof.
  assert (Hrepr : repr (store Sample.state_p) (TTab Sample.pipeline_doc)
                       (_config Sample.pipeline_p)) by solve_repr.
  split; [exact Hrepr|].
  exact (run_step_override_argument Sample.pipeline_p "train" (Some "fast")
           Sample.state_p Sample.pipeline_doc Hrepr).
Defined.

Lemma run_creates_installs_then_runs_witness :
  exists w2,
    env_exists Sample.project_a w2 = true /\
    env_contains Sample.project_a w2 = true /\
    Project.run Sample.project_a ["build"] (Fake.init Sample.world) =
      ((env_run Sample.project_a ["build"] w2).1,
       mkState [] (env_run Sample.project_a ["build"] w2).2
         [EvCreate Sample.project_a; EvLog (LogInstalling Sample.project_a);
          EvInstall Sample.project_a; EvRun Sample.project_a ["build"]]).
Proof.
  apply (run_creates_installs_then_runs (W:=Fake.t) Sample.project_a
           ["build"] (Fake.init Sample.world)).
  reflexivity.
Defined.

Lemma pipeline_requires_steps_and_typeo_witness :
  (Pipeline.__post_init__ "/u" (Fake.init Sample.world)).1 =
    inl (MissingKey_typeo "/u/pyproject.toml").
Proof.
  refine (proj1 (proj2 (pipeline_requires_steps_and_typeo "/u"
                          (Fake.init Sample.world) Sample.untyped_doc _)) _ _).
  - reflexivity.
  - eexists. reflexivity.
  - exists "typeo". reflexivity.
Defined.


(** * Further properties of the code *)

(** ** Computations that leave the outside alone *)

Section quiet.
Context {W : Type}.

Lemma quiet_ret {A} (a : A) : quiet (W:=W) (ret a).
Proof. intros s. cbn. repeat split. exists []. symmetry. apply app_nil_r. Qed.

Lemma quiet_raise {A} e : quiet (W:=W) (A:=A) (raise e).
Proof. intros s. cbn. repeat split. exists []. symmetry. apply app_nil_r. Qed.

Lemma quiet_read {A} (f : heap -> result A) : quiet (W:=W) (read f).
Proof. intros s. cbn. repeat split. exists []. symmetry. apply app_nil_r. Qed.

Lemma quiet_alloc o : quiet (W:=W) (alloc o).
Proof. intros s. cbn. repeat split. exists [o]. reflexivity. Qed.

Lemma quiet_py_copy v : quiet (W:=W) (py_copy v).
Proof.
  intros s. unfold py_copy.
  destruct v; try apply (quiet_raise (A:=pyval) AttributeError s).
  destruct (store s !! l) as [o|].
  - apply quiet_alloc.
  - apply (quiet_raise (A:=pyval) AttributeError s).
Qed.

Lemma quiet_bind {A B} (m : M W A) (k : A -> M W B) :
  quiet m -> (forall a, quiet (k a)) -> quiet (bind m k).
Proof.
  intros Hm Hk s. unfold bind.
  destruct (Hm s) as (Hw & Ht & ext & Hs).
  destruct (m s) as [[e|a] s1]; cbn in *.
  - repeat split; try assumption. exists ext. exact Hs.
  - destruct (Hk a s1) as (Hw' & Ht' & ext' & Hs').
    split; [congruence|]. split; [congruence|].
    exists (ext ++ ext'). rewrite Hs', Hs, app_assoc. reflexivity.
Qed.

Lemma quiet_attempt {A} (m : M W A) : quiet m -> quiet (attempt m).
Proof.
  intros Hm s. unfold attempt. specialize (Hm s).
  destruct (m s) as [r s1]. exact Hm.
Qed.

Lemma opens_only_bind {A B} file (m : M W A) (k : A -> M W B) :
  opens_only file m -> (forall a, quiet (k a)) -> opens_only file (bind m k).
Proof.
  intros Hm Hk s. unfold bind.
  destruct (Hm s) as (Hw & Ht & ext & Hs).
  destruct (m s) as [[e|a] s1]; cbn in *.
  - repeat split; try assumption. exists ext. exact Hs.
  - destruct (Hk a s1) as (Hw' & Ht' & ext' & Hs').
    split; [congruence|]. split; [congruence|].
    exists (ext ++ ext'). rewrite Hs', Hs, app_assoc. reflexivity.
Qed.

Lemma opens_only_attempt {A} file (m : M W A) :
  opens_only file m -> opens_only file (attempt m).
Proof.
  intros Hm s. unfold attempt. specialize (Hm s).
  destruct (m s) as [r s1]. exact Hm.
Qed.
End quiet.

Section quiet_accessors.
Context {W : Type} `{Host W} `{Environment W}.

Lemma quiet_config (self : ProjectBase) :
  quiet (W:=W) (ProjectBase.config self).
Proof. apply quiet_py_copy. Qed.

Lemma quiet_steps (self : ProjectBase) : quiet (W:=W) (Pipeline.steps self).
Proof. unfold Pipeline.steps. repeat first [ apply quiet_ret | apply quiet_raise | apply quiet_read
               | apply quiet_alloc | apply quiet_py_copy | apply quiet_attempt
               | apply quiet_bind; [|intros ?] ]. Qed.

Lemma quiet_typeo_config (self : ProjectBase) :
  quiet (W:=W) (Pipeline.typeo_config self).
Proof.
  unfold Pipeline.typeo_config. repeat first [ apply quiet_ret | apply quiet_raise | apply quiet_read
               | apply quiet_alloc | apply quiet_py_copy | apply quiet_attempt
               | apply quiet_bind; [|intros ?] ].
Qed.

Lemma quiet_typeo_arg (self : ProjectBase) command subcommand :
  quiet (W:=W) (Pipeline.typeo_arg self command subcommand).
Proof.
  unfold Pipeline.typeo_arg.
  apply quiet_bind.
  - apply quiet_attempt.
    repeat first [ apply quiet_typeo_config | apply quiet_ret | apply quiet_read
                 | apply quiet_bind; [|intros ?] ].
  - intros [e|arg]; [destruct e|]; destruct subcommand;
    first [apply quiet_ret | apply quiet_raise].
Qed.

Lemma quiet_pinto_config (self : Project) :
  quiet (W:=W) (Project.pinto_config self).
Proof.
  unfold Project.pinto_config.
  apply quiet_bind.
  - apply quiet_attempt. repeat first [ apply quiet_ret | apply quiet_raise | apply quiet_read
               | apply quiet_alloc | apply quiet_py_copy | apply quiet_attempt
               | apply quiet_bind; [|intros ?] ].
  - intros [e|v]; [destruct e|];
    first [apply quiet_ret | apply quiet_raise | apply quiet_alloc].
Qed.

(** X1. Reading the configuration -- [config], [pinto_config], [steps],
    [typeo_config] and the building of the override argument -- never
    calls the environment manager, opens no file, logs nothing, and
    leaves every object of the store where it was: it only adds the
    copies it makes. *)
Theorem configuration_reads_are_quiet (p : Project) (self : ProjectBase)
    command subcommand :
  quiet (W:=W) (ProjectBase.config self) /\
  quiet (W:=W) (Project.pinto_config p) /\
  quiet (W:=W) (Pipeline.steps self) /\
  quiet (W:=W) (Pipeline.typeo_config self) /\
  quiet (W:=W) (Pipeline.typeo_arg self command subcommand).
Proof.
  split; [apply quiet_config|]. split; [apply quiet_pinto_config|].
  split; [apply quiet_steps|]. split; [apply quiet_typeo_config|].
  apply quiet_typeo_arg.
Qed.
End quiet_accessors.

(** ** Construction, in every case *)

Section construction_cases.
Context {W : Type} `{Host W} `{Environment W}.
Implicit Types (s : state W).

Lemma opens_only_open_load file :
  opens_only (W:=W) file (ProjectBase.open_load file).
Proof.
  intros s. unfold ProjectBase.open_load, bind, emit. cbn [world store trace].
  destruct (read_toml file (world s)) as [e|es].
  - cbn. repeat split. exists []. symmetry. apply app_nil_r.
  - destruct (load_repr (TTab es) (store s)) as (ext & Hext & _).
    destruct (load (TTab es) (store s)) as [v h]. cbn in Hext |- *.
    split; [reflexivity|]. split; [reflexivity|]. exists ext. exact Hext.
Qed.

Lemma opens_only_base_init cls path0 :
  opens_only (W:=W) (joinpath (abspath path0) "pyproject.toml")
    (ProjectBase.__post_init__ cls path0).
Proof.
  unfold ProjectBase.__post_init__. apply opens_only_bind.
  - apply opens_only_attempt, opens_only_open_load.
  - intros [e|cfg]; [destruct e|]; first [apply quiet_ret | apply quiet_raise].
Qed.

Lemma opens_only_project_init path0 :
  opens_only (W:=W) (joinpath (abspath path0) "pyproject.toml")
    (Project.__post_init__ path0).
Proof.
  unfold Project.__post_init__. apply opens_only_bind.
  - apply opens_only_base_init.
  - intros b.
    repeat first [ apply quiet_ret | apply quiet_read
                 | apply quiet_bind; [|intros ?] ].
Qed.

Lemma opens_only_pipeline_init path0 :
  opens_only (W:=W) (joinpath (abspath path0) "pyproject.toml")
    (Pipeline.__post_init__ path0).
Proof.
  unfold Pipeline.__post_init__. apply opens_only_bind.
  - apply opens_only_base_init.
  - intros self.
    apply quiet_bind; [apply quiet_attempt, quiet_steps|]. intros r1.
    apply quiet_bind.
    { destruct r1 as [e|v]; [destruct e|];
        first [apply quiet_ret | apply quiet_raise]. }
    intros _.
    apply quiet_bind; [apply quiet_attempt, quiet_typeo_config|]. intros r2.
    apply quiet_bind; [|intros _; apply quiet_ret].
    destruct r2 as [e|v]; [destruct e|];
      first [apply quiet_ret | apply quiet_raise].
Qed.

(** X2. Constructing a [Project] or a [Pipeline], and [build], open the
    descriptor file of the given path exactly once and do nothing else
    outside: whether they succeed or fail, the environment manager is not
    called, nothing is logged, and the objects already in the store stay
    where they are. *)
Theorem construction_only_opens_descriptor path0 force :
  let file := joinpath (abspath path0) "pyproject.toml" in
  opens_only (W:=W) file (Project.__post_init__ path0) /\
  opens_only (W:=W) file (Pipeline.__post_init__ path0) /\
  opens_only (W:=W) file (Cli.build path0 force).
Proof.
  cbv zeta. split; [apply opens_only_project_init|].
  split; [apply opens_only_pipeline_init|].
  unfold Cli.build. apply opens_only_bind.
  - apply opens_only_project_init.
  - intros p. apply quiet_raise.
Qed.

Lemma base_init_read_fails cls path0 s e :
  let file := joinpath (abspath path0) "pyproject.toml" in
  read_toml file (world s) = inl e ->
  ProjectBase.__post_init__ cls path0 s =
    (inl match e with
         | FileNotFoundError => MissingDescriptor cls (abspath path0) file
         | _ => e
         end,
     mkState (store s) (world s) (trace s ++ [EvOpen file])).
Proof.
  cbv zeta. intros Hread.
  unfold ProjectBase.__post_init__, ProjectBase.open_load,
    bind, attempt, emit, ret, raise.
  cbn [world store trace]. rewrite Hread. destruct e; reflexivity.
Qed.

(** X3. When the descriptor cannot be read, construction fails without
    allocating anything: a missing file gives the [ValueError] that names
    the class being constructed, the path and the expected file; any
    other failure of reading or parsing is raised as it is. *)
Theorem construction_when_read_fails path0 s e :
  let file := joinpath (abspath path0) "pyproject.toml" in
  read_toml file (world s) = inl e ->
  let s' := mkState (store s) (world s) (trace s ++ [EvOpen file]) in
  let raised cls :=
    match e with
    | FileNotFoundError =>
        ValueError (cls +:+ " " +:+ abspath path0 +:+
                    " has no associated 'pyproject.toml' at location " +:+
                    file)
    | _ => e
    end in
  Project.__post_init__ path0 s = (inl (raised "Project"), s') /\
  Pipeline.__post_init__ path0 s = (inl (raised "Pipeline"), s').
Proof.
  cbv zeta. intros Hread. split.
  - unfold Project.__post_init__, bind.
    rewrite (base_init_read_fails "Project" path0 s e Hread).
    destruct e; reflexivity.
  - unfold Pipeline.__post_init__, bind at 1.
    rewrite (base_init_read_fails "Pipeline" path0 s e Hread).
    destruct e; reflexivity.
Qed.

(** X4. Over a descriptor whose document has an entry at
    [tool.poetry.name], constructing a [Project] succeeds: its path is
    the absolute path, its name is that entry, its configuration holds
    the document, and objects already in the store are untouched. *)
Theorem project_construction_reads_name path0 s es t :
  read_toml (joinpath (abspath path0) "pyproject.toml") (world s) = inr es ->
  tpath (TTab es) name_path = inr t ->
  exists self s',
    Project.__post_init__ path0 s = (inr self, s') /\
    path self = abspath path0 /\
    repr (store s') t (name self) /\
    repr (store s') (TTab es) (_config self) /\
    keeps (store s) (store s').
Proof.
  intros Hread Hname.
  destruct (project_init_spec path0 s es Hread) as (ext & v & Hrepr & Hspec).
  cbv zeta in Hspec. rewrite Hname in Hspec.
  destruct Hspec as (n & Hinit & Hn).
  eexists _, _. split; [exact Hinit|]. cbn.
  split; [reflexivity|]. split; [exact Hn|]. split; [exact Hrepr|].
  apply keeps_app.
Qed.

End construction_cases.

(** ** What the configuration accessors return and raise *)

Lemma getitem_error h v k e :
  getitem h v k = inl e -> e = TypeError \/ e = KeyError k.
Proof.
  unfold getitem. destruct v; try (intros [= <-]; left; reflexivity).
  destruct (h !! l) as [[d|xs]|]; try (intros [= <-]; left; reflexivity).
  destruct (dict_get d k); [discriminate|].
  intros [= <-]. right. reflexivity.
Qed.

Lemma py_in_error h s v e : py_in h s v = inl e -> e = TypeError.
Proof.
  unfold py_in. destruct v; try congruence.
  destruct (h !! l) as [[d|xs]|]; congruence.
Qed.

Lemma prefix_refl p : String.prefix p p = true.
Proof.
  induction p as [|c p IHp]; cbn; [reflexivity|].
  destruct (ascii_dec c c) as [_|Hne]; [exact IHp | congruence].
Qed.

Lemma prefix_append p x : String.prefix p (p +:+ x) = true.
Proof.
  induction p as [|c p IHp].
  - destruct x; reflexivity.
  - change (String c p +:+ x) with (String c (p +:+ x)). cbn.
    destruct (ascii_dec c c) as [_|Hne]; [exact IHp | congruence].
Qed.

Lemma prefix_append2 p x y : String.prefix p ((p +:+ x) +:+ y) = true.
Proof.
  induction p as [|c p IHp].
  - destruct (("" +:+ x) +:+ y); reflexivity.
  - change ((String c p +:+ x) +:+ y) with (String c ((p +:+ x) +:+ y)). cbn.
    destruct (ascii_dec c c) as [_|Hne]; [exact IHp | congruence].
Qed.

Section accessor_results.
Context {W : Type} `{Host W} `{Environment W}.
Implicit Types (s : state W).

Lemma config_error (self : ProjectBase) s e :
  (ProjectBase.config self s).1 = inl e -> e = AttributeError.
Proof.
  unfold ProjectBase.config, py_copy, alloc.
  destruct (_config self); cbn; try congruence.
  destruct (store s !! l); cbn; congruence.
Qed.

Lemma py_copy_error v s e :
  (py_copy (W:=W) v s).1 = inl e -> e = AttributeError.
Proof.
  unfold py_copy, alloc. destruct v; cbn; try congruence.
  destruct (store s !! l); cbn; congruence.
Qed.

(** X6. Over a configuration whose [tool.pinto] entry is a table,
    [pinto_config] returns a new dictionary with the entries of that
    table; it is not the internal object, and everything that was in the
    store stays as it was. *)
Theorem pinto_config_returns_copy (self : Project) s es entries :
  repr (store s) (TTab es) (_config self) ->
  tpath (TTab es) pinto_path = inr (TTab entries) ->
  exists l s',
    Project.pinto_config self s = (inr (VRef l), s') /\
    length (store s) <= l /\
    repr (store s') (TTab entries) (VRef l) /\
    keeps (store s) (store s').
Proof.
  intros Hr Hp.
  destruct (config_spec self s es Hr) as (d & Hc & Hr').
  unfold Project.pinto_config.
  unfold bind at 1, attempt at 1, bind at 1. rewrite Hc.
  unfold bind at 1, read at 1. cbn [store].
  unfold pinto_path in Hp. cbn [tpath] in Hp.
  pose proof (getitem_tget _ _ _ "tool" Hr') as H1.
  destruct (tget (TTab es) "tool") as [e|t1]; [discriminate Hp|].
  destruct H1 as (v1 & -> & Hr1).
  unfold bind at 1, read at 1. cbn [store].
  pose proof (getitem_tget _ _ _ "pinto" Hr1) as H2.
  destruct (tget t1 "pinto") as [e|t2]; [discriminate Hp|].
  injection Hp as ->.
  destruct H2 as (v2 & -> & Hr2).
  destruct (proj1 (repr_TTab _ _ _) Hr2) as (l2 & d2 & -> & Hl2 & Hd2).
  unfold py_copy. cbn [store]. rewrite Hl2.
  unfold alloc, ret. cbn [store world trace].
  eexists _, _. split; [reflexivity|]. cbn [store].
  split; [rewrite length_app; lia|]. split.
  - apply repr_TTab. eexists _, d2. split; [reflexivity|]. split.
    + rewrite lookup_app_r by lia. rewrite Nat.sub_diag. reflexivity.
    + eapply repr_entries_keeps; [apply keeps_app | exact Hd2].
  - eapply keeps_trans; apply keeps_app.
Qed.

(** X7. Whatever the configuration objects look like, [pinto_config]
    never lets a [KeyError] out: the only exceptions it can raise are the
    [TypeError] of subscripting something that is not a table and the
    [AttributeError] of copying something that has no [copy]. *)
Theorem pinto_config_exceptions (self : Project) s :
  match (Project.pinto_config self s).1 with
  | inl e => e = TypeError \/ e = AttributeError
  | inr _ => True
  end.
Proof.
  unfold Project.pinto_config, bind at 1, attempt at 1.
  destruct ((c <- ProjectBase.config self;;
             t <- read (fun h => getitem h c "tool");;
             p <- read (fun h => getitem h t "pinto");; py_copy p) s)
    as [r s1] eqn:Hblock.
  assert (Hr : forall e', r = inl e' ->
            e' = TypeError \/ e' = AttributeError \/ exists k, e' = KeyError k).
  { intros e' ->. revert Hblock. unfold bind at 1.
    pose proof (config_error self s) as Hc.
    destruct (ProjectBase.config self s) as [[e0|c] s0]; cbn in Hc.
    { intros [= <- _]. right. left. apply Hc. reflexivity. }
    clear Hc. unfold bind at 1, read at 1.
    destruct (getitem (store s0) c "tool") as [e1|t] eqn:H1.
    { intros [= <- _]. destruct (getitem_error _ _ _ _ H1) as [->| ->];
        eauto. }
    unfold bind at 1, read at 1.
    destruct (getitem (store s0) t "pinto") as [e2|p] eqn:H2.
    { intros [= <- _]. destruct (getitem_error _ _ _ _ H2) as [->| ->];
        eauto. }
    intros Hcopy. right. left.
    apply (py_copy_error p s0). rewrite Hcopy. reflexivity. }
  destruct r as [e'|v].
  - destruct (Hr e' eq_refl) as [->|[->|[k ->]]]; cbn.
    + left. reflexivity.
    + right. reflexivity.
    + exact I.
  - exact I.
Qed.

Lemma typeo_arg_outcome (self : ProjectBase) command
    subcommand s :
  match (Pipeline.typeo_arg self command subcommand s).1 with
  | inr arg => String.prefix (path self) arg = true
  | inl e => e = TypeError \/ e = AttributeError
  end.
Proof.
  unfold Pipeline.typeo_arg, bind at 1, attempt at 1.
  destruct ((tc <- Pipeline.typeo_config self;;
             scripts <- read (fun h => getitem h tc "scripts");;
             found <- read (fun h => py_in h command scripts);;
             ret (if found : bool
                  then path self +:+ ":" +:+ command else path self)) s)
    as [r s1] eqn:Hblock.
  assert (Hr : match r with
               | inr arg => arg = path self \/
                            arg = path self +:+ ":" +:+ command
               | inl e' => e' = TypeError \/ e' = AttributeError \/
                           exists k, e' = KeyError k
               end).
  { revert Hblock. unfold bind at 1, Pipeline.typeo_config, bind at 1.
    pose proof (config_error self s) as Hc.
    destruct (ProjectBase.config self s) as [[e0|c] s0]; cbn in Hc.
    { intros [= <- _]. right. left. apply Hc. reflexivity. }
    clear Hc. unfold bind at 1, read at 1.
    destruct (getitem (store s0) c "tool") as [e1|t] eqn:H1.
    { intros [= <- _]. destruct (getitem_error _ _ _ _ H1) as [->| ->];
        eauto. }
    unfold read at 1.
    destruct (getitem (store s0) t "typeo") as [e2|tc] eqn:H2.
    { intros [= <- _]. destruct (getitem_error _ _ _ _ H2) as [->| ->];
        eauto. }
    unfold bind at 1, read at 1.
    destruct (getitem (store s0) tc "scripts") as [e3|scripts] eqn:H3.
    { intros [= <- _]. destruct (getitem_error _ _ _ _ H3) as [->| ->];
        eauto. }
    unfold bind at 1, read at 1.
    destruct (py_in (store s0) command scripts) as [e4|found] eqn:H4.
    { intros [= <- _]. left. eapply py_in_error, H4. }
    unfold ret. intros [= <- _]. destruct found; auto. }
  destruct r as [e'|arg].
  - destruct Hr as [->|[->|[k ->]]].
    + left. reflexivity.
    + right. reflexivity.
    + destruct subcommand; cbn; [apply prefix_append | apply prefix_refl].
  - destruct Hr as [-> | ->]; destruct subcommand; cbn.
    + apply prefix_append.
    + apply prefix_refl.
    + apply prefix_append2.
    + apply prefix_append.
Qed.

(** X8. The override argument always begins with the pipeline's path,
    and building it never lets a [KeyError] out: it can only fail with
    the [TypeError] of an entry that is not a table (or cannot be
    searched) or the [AttributeError] of a configuration that cannot be
    copied. *)
Theorem typeo_arg_prefix_and_exceptions (self : ProjectBase) command
    subcommand s :
  match (Pipeline.typeo_arg self command subcommand s).1 with
  | inr arg => String.prefix (path self) arg = true
  | inl e => e = TypeError \/ e = AttributeError
  end.
Proof. apply typeo_arg_outcome. Qed.
End accessor_results.

(** ** More on [Project.install] and [Project.run] *)

Section install_and_run.
Context {W : Type} `{Environment W}.
Implicit Types (s : state W) (self : Project).

Lemma install_never_runs self force s :
  ran (drop (length (trace s)) (trace (Project.install self force s).2)) = [].
Proof.
  pose proof (install_cases self force s) as Hc. cbv zeta in Hc.
  destruct (env_exists self (world s)).
  - rewrite Hc. destruct (env_contains self (world s)); cbn [negb].
    + destruct force.
      * destruct (env_install self (world s)) as [r2 w2].
        cbn [snd trace]. rewrite drop_app_length. reflexivity.
      * cbn [snd trace]. rewrite drop_app_length. reflexivity.
    + destruct (env_install self (world s)) as [r2 w2].
      cbn [snd trace]. rewrite drop_app_length. reflexivity.
  - destruct (env_create self (world s)) as [[e|[]] w1]; rewrite Hc.
    + cbn [snd trace]. rewrite drop_app_length. reflexivity.
    + destruct (env_contains self w1); cbn [negb].
      * destruct force.
        -- destruct (env_install self w1) as [r2 w2].
           cbn [snd trace]. rewrite drop_app_length. reflexivity.
        -- cbn [snd trace]. rewrite drop_app_length. reflexivity.
      * destruct (env_install self w1) as [r2 w2].
        cbn [snd trace]. rewrite drop_app_length. reflexivity.
Qed.

(** X9. [install] calls [create] exactly when the environment does not
    exist, and before anything else; when [create] fails its error is the
    outcome and [install] is not attempted.  It never runs a command and
    never opens a file. *)
Theorem install_creates_only_when_absent self force s :
  let evs := events_of (Project.install self force) s in
  creates evs = (if env_exists self (world s) then 0 else 1) /\
  ran evs = [] /\ opened evs = [] /\
  (if env_exists self (world s) then True
   else match env_create self (world s) with
        | (inl e, w1) =>
            Project.install self force s =
              (inl e, mkState (store s) w1 (trace s ++ [EvCreate self]))
        | (inr _, _) => head evs = Some (EvCreate self)
        end).
Proof.
  cbv zeta. unfold events_of.
  pose proof (install_cases self force s) as Hc. cbv zeta in Hc.
  destruct (env_exists self (world s)).
  - rewrite Hc. destruct (env_contains self (world s)); cbn [negb].
    + destruct force.
      * destruct (env_install self (world s)) as [r2 w2].
        cbn [snd trace]. rewrite drop_app_length. repeat split.
      * cbn [snd trace]. rewrite drop_app_length. repeat split.
    + destruct (env_install self (world s)) as [r2 w2].
      cbn [snd trace]. rewrite drop_app_length. repeat split.
  - destruct (env_create self (world s)) as [[e|[]] w1]; rewrite Hc.
    + cbn [snd trace]. rewrite drop_app_length. repeat split.
    + destruct (env_contains self w1); cbn [negb].
      * destruct force.
        -- destruct (env_install self w1) as [r2 w2].
           cbn [snd trace]. rewrite drop_app_length. repeat split.
        -- cbn [snd trace]. rewrite drop_app_length. repeat split.
      * destruct (env_install self w1) as [r2 w2].
        cbn [snd trace]. rewrite drop_app_length. repeat split.
Qed.

(** X10. With an environment manager that follows the life cycle,
    [install] always succeeds and leaves the environment existing with
    the project in it; installing again without [force] then calls
    nothing and only logs that the project is already installed. *)
Theorem install_then_install_is_noop `{!Lifecycle W} self force s :
  let s1 := (Project.install self force s).2 in
  (Project.install self force s).1 = inr tt /\
  env_exists self (world s1) = true /\
  env_contains self (world s1) = true /\
  Project.install self false s1 =
    (inr tt, mkState (store s1) (world s1)
               (trace s1 ++ [EvLog (LogAlreadyInstalled self)])).
Proof.
  cbv zeta.
  assert (Hnoop : forall s1, env_exists self (world s1) = true ->
            env_contains self (world s1) = true ->
            Project.install self false s1 =
              (inr tt, mkState (store s1) (world s1)
                         (trace s1 ++ [EvLog (LogAlreadyInstalled self)]))).
  { intros s1 Hex Hco. pose proof (install_cases self false s1) as Hc.
    cbv zeta in Hc. rewrite Hex, Hco in Hc. exact Hc. }
  pose proof (install_cases self force s) as Hc. cbv zeta in Hc.
  destruct (env_exists self (world s)) eqn:Hex.
  - destruct (env_contains self (world s)) eqn:Hco; cbn [negb] in Hc.
    + destruct force.
      * destruct (install_existing self (world s) Hex)
          as (w2 & Hinstall & Hex2 & Hco2).
        rewrite Hinstall in Hc. rewrite Hc. cbn [fst snd].
        split; [reflexivity|]. split; [exact Hex2|]. split; [exact Hco2|].
        apply Hnoop; [exact Hex2 | exact Hco2].
      * rewrite Hc. cbn [fst snd].
        split; [reflexivity|]. split; [exact Hex|]. split; [exact Hco|].
        apply Hnoop; [exact Hex | exact Hco].
    + destruct (install_existing self (world s) Hex)
        as (w2 & Hinstall & Hex2 & Hco2).
      rewrite Hinstall in Hc. rewrite Hc. cbn [fst snd].
      split; [reflexivity|]. split; [exact Hex2|]. split; [exact Hco2|].
      apply Hnoop; [exact Hex2 | exact Hco2].
  - destruct (create_absent self (world s) Hex)
      as (w1 & Hcreate & Hex1 & Hco1).
    rewrite Hcreate, Hco1 in Hc. cbn [negb] in Hc.
    destruct (install_existing self w1 Hex1)
      as (w2 & Hinstall & Hex2 & Hco2).
    rewrite Hinstall in Hc. rewrite Hc. cbn [fst snd].
    split; [reflexivity|]. split; [exact Hex2|]. split; [exact Hco2|].
    apply Hnoop; [exact Hex2 | exact Hco2].
Qed.

(** X11. With an environment manager that follows the life cycle, the
    [force] flag makes no difference on a project that is not installed
    yet: the same calls, the same log record, the same outcome. *)
Theorem force_only_matters_when_installed `{!Lifecycle W} self s :
  env_exists self (world s) && env_contains self (world s) = false ->
  Project.install self true s = Project.install self false s.
Proof.
  intros Hnot.
  pose proof (install_cases self true s) as Ht. cbv zeta in Ht.
  pose proof (install_cases self false s) as Hf. cbv zeta in Hf.
  destruct (env_exists self (world s)) eqn:Hex.
  - cbn [andb] in Hnot. rewrite Hnot in Ht, Hf. cbn [negb] in Ht, Hf.
    rewrite Ht, Hf. reflexivity.
  - destruct (create_absent self (world s) Hex)
      as (w1 & Hcreate & Hex1 & Hco1).
    rewrite Hcreate, Hco1 in Ht, Hf. cbn [negb] in Ht, Hf.
    rewrite Ht, Hf. reflexivity.
Qed.

(** X12. With an environment manager that follows the life cycle,
    [run] always executes the command in an environment that exists and
    contains the project, and returns what the environment's [run] gives.
    Before the command it calls [create] only if the environment was
    absent and [install] only if the project was not installed; on an
    installed project it calls nothing but [run], in the world as it
    was.  The store is never touched. *)
Theorem run_always_on_installed `{!Lifecycle W} self args s :
  exists w evs,
    env_exists self w = true /\ env_contains self w = true /\
    Project.run self args s =
      ((env_run self args w).1,
       mkState (store s) (env_run self args w).2
         (trace s ++ evs ++ [EvRun self args])) /\
    ran evs = [] /\
    creates evs = (if env_exists self (world s) then 0 else 1) /\
    installs evs =
      (if env_exists self (world s) && env_contains self (world s)
       then 0 else 1) /\
    (if env_exists self (world s) && env_contains self (world s)
     then w = world s /\ evs = [] else True).
Proof.
  destruct (env_exists self (world s)) eqn:Hex.
  - destruct (env_contains self (world s)) eqn:Hco; cbn [andb].
    + exists (world s), []. split; [exact Hex|]. split; [exact Hco|].
      split; [apply run_on_installed; assumption|]. repeat split.
    + destruct (install_existing self (world s) Hex)
        as (w2 & Hinstall & Hex2 & Hco2).
      exists w2, [EvLog (LogInstalling self); EvInstall self].
      split; [exact Hex2|]. split; [exact Hco2|].
      split; [apply run_on_uninstalled; assumption|]. repeat split.
  - cbn [andb].
    destruct (create_absent self (world s) Hex)
      as (w1 & Hcreate & Hex1 & Hco1).
    destruct (install_existing self w1 Hex1)
      as (w2 & Hinstall & Hex2 & Hco2).
    exists w2, [EvCreate self; EvLog (LogInstalling self); EvInstall self].
    split; [exact Hex2|]. split; [exact Hco2|].
    split; [apply (run_on_absent self args s w1 w2); assumption|].
    repeat split.
Qed.

(** X13. For any environment manager: when the project has to be
    installed and the installation fails, [run] fails with the same
    error in the state the installation left, and the command is not
    run. *)
Theorem run_aborts_when_install_fails self args s e :
  env_exists self (world s) && env_contains self (world s) = false ->
  (Project.install self false s).1 = inl e ->
  Project.run self args s = (inl e, (Project.install self false s).2) /\
  ran (events_of (Project.run self args) s) = [].
Proof.
  intros Hnot Hfail.
  assert (Hrun : Project.run self args s =
                   (inl e, (Project.install self false s).2)).
  { unfold Project.run, bind at 1, query at 1.
    destruct (env_exists self (world s)) eqn:Hex; cbn [negb andb] in *.
    - unfold bind at 1, bind at 1, query at 1. rewrite Hnot.
      unfold ret at 1. cbn [negb]. unfold bind at 1.
      destruct (Project.install self false s) as [[e'|[]] s1];
        cbn in Hfail; [|discriminate Hfail].
      injection Hfail as ->. reflexivity.
    - unfold bind at 1, ret at 1. unfold bind at 1.
      destruct (Project.install self false s) as [[e'|[]] s1];
        cbn in Hfail; [|discriminate Hfail].
      injection Hfail as ->. reflexivity. }
  split; [exact Hrun|].
  unfold events_of. rewrite Hrun. cbn [snd].
  exact (install_never_runs self false s).
Qed.
End install_and_run.

(** ** Steps: from fields to text and back *)

Lemma join_split sep s : join sep (split sep s) = s.
Proof.
  induction s as [|c s IHs]; [reflexivity|].
  cbn [split]. destruct (Ascii.eqb_spec c sep) as [->|Hne].
  - destruct (split sep s) as [|f fs] eqn:Hsplit.
    + exfalso. eapply split_not_nil, Hsplit.
    + change (join sep ("" :: f :: fs))
        with ("" +:+ String sep (join sep (f :: fs))).
      rewrite IHs. reflexivity.
  - destruct (split sep s) as [|f fs] eqn:Hsplit.
    + exfalso. eapply split_not_nil, Hsplit.
    + destruct fs as [|g fs].
      * cbn in IHs |- *. rewrite IHs. reflexivity.
      * change (join sep (String c f :: g :: fs))
          with (String c f +:+ String sep (join sep (g :: fs))).
        change (join sep (f :: g :: fs))
          with (f +:+ String sep (join sep (g :: fs))) in IHs.
        rewrite <- IHs. reflexivity.
Qed.

Lemma split_fields_no_sep sep s :
  Forall (fun f => has_char sep f = false) (split sep s).
Proof.
  induction s as [|c s IHs]; cbn [split].
  - constructor; [reflexivity | constructor].
  - destruct (Ascii.eqb c sep) eqn:Hc.
    + constructor; [reflexivity | exact IHs].
    + destruct (split sep s) as [|f fs].
      * constructor; [|constructor]. cbn. rewrite Hc. reflexivity.
      * inversion IHs as [|? ? Hf Hfs]; subst.
        constructor; [|exact Hfs]. cbn. rewrite Hc. exact Hf.
Qed.

(** X15. What [parse_step] accepts it loses nothing of: the component,
    the command and the subcommand it returns contain no colon, and
    joined by colons they give back the step. *)
Theorem parse_step_fields_rejoin step component command subcommand :
  Cli.parse_step step = inr (component, command, subcommand) ->
  join colon (component :: command :: option_list subcommand) = step /\
  Forall (fun f => has_char colon f = false)
         (component :: command :: option_list subcommand).
Proof.
  unfold Cli.parse_step. intros Hparse.
  pose proof (join_split colon step) as Hjoin.
  pose proof (split_fields_no_sep colon step) as Hfields.
  destruct (split colon step) as [|a [|b [|c [|d l]]]]; cbn in Hparse;
    try discriminate Hparse.
  - injection Hparse as <- <- <-. split; assumption.
  - injection Hparse as <- <- <-. split; assumption.
Qed.

(** ** The pipeline run, end to end *)

Lemma repr_items_strings h strs vs :
  repr_items h (map TStr strs) vs -> vs = map VStr strs.
Proof.
  revert vs. induction strs as [|st strs IH]; intros [|v vs]; cbn;
    try tauto.
  intros [-> Hvs]. f_equal. apply IH, Hvs.
Qed.

Lemma ran_app evs1 evs2 : ran (evs1 ++ evs2) = ran evs1 ++ ran evs2.
Proof. apply omap_app. Qed.

Lemma commands_app evs1 evs2 :
  commands (evs1 ++ evs2) = commands evs1 ++ commands evs2.
Proof. unfold commands. rewrite ran_app. apply omap_app. Qed.

Section end_to_end.
Context {W : Type} `{Host W} `{Environment W}.
Implicit Types (s : state W) (pipeline : ProjectBase).

(** X16. Over a descriptor whose [tool.pinto.steps] is an array of
    strings and which has a [tool.typeo] table, [run] constructs the
    pipeline -- opening its descriptor and nothing else -- and then runs
    exactly the steps of the document, in their order; with an empty array
    it ends there, successfully. *)
Theorem run_executes_document_steps path0 s es strs :
  read_toml (joinpath (abspath path0) "pyproject.toml") (world s) = inr es ->
  tpath (TTab es) steps_path = inr (TArr (map TStr strs)) ->
  has (TTab es) typeo_path ->
  exists self s1,
    path self = abspath path0 /\
    repr (store s1) (TTab es) (_config self) /\
    world s1 = world s /\
    trace s1 =
      trace s ++ [EvOpen (joinpath (abspath path0) "pyproject.toml")] /\
    Cli.run path0 s = Cli.run_steps self (map VStr strs) s1 /\
    (strs = [] -> Cli.run path0 s = (inr tt, s1)).
Proof.
  intros Hread Hsteps [ttypeo Htypeo].
  pose proof (pipeline_init_spec path0 s es Hread) as Hspec.
  cbv zeta in Hspec. rewrite Hsteps, Htypeo in Hspec.
  destruct Hspec as (v & s0 & Hinit & Hrepr & _ & Hworld & Htrace).
  set (self := {| path := abspath path0; _config := v |}) in *.
  destruct (config_at_spec self steps_path s0 es Hrepr) as (d & Hd).
  cbv zeta in Hd. rewrite Hsteps in Hd.
  destruct Hd as (vsteps & Hread_steps & Hrsteps).
  set (s1 := mkState (store s0 ++ [ODict d]) (world s0) (trace s0)) in *.
  destruct (proj1 (repr_TArr _ _ _) Hrsteps) as (l & vs & -> & Hl & Hvs).
  apply repr_items_strings in Hvs. subst vs.
  assert (Hrun : Cli.run path0 s = Cli.run_steps self (map VStr strs) s1).
  { unfold Cli.run, bind at 1. rewrite Hinit.
    unfold bind at 1. rewrite steps_config_at, Hread_steps.
    unfold bind at 1, read at 1, py_iter. rewrite Hl. reflexivity. }
  exists self, s1. split; [reflexivity|]. split.
  { eapply repr_keeps; [apply keeps_app | exact Hrepr]. }
  split; [exact Hworld|]. split; [exact Htrace|]. split; [exact Hrun|].
  intros ->. rewrite Hrun. reflexivity.
Qed.

(** What [Project.run] adds to the trace: no file opened, and the one
    command, unless it failed before running it. *)
Lemma project_run_events (p : Project) args s :
  exists evs,
    trace (Project.run p args s).2 = trace s ++ evs /\
    opened evs = [] /\
    (ran evs = [(p, args)] \/
     (ran evs = [] /\ exists e, (Project.run p args s).1 = inl e)).
Proof.
  pose proof (install_cases p false s) as Hc. cbv zeta in Hc.
  unfold Project.run, bind, query, ret, emit, act.
  destruct (env_exists p (world s)); cbn [negb] in *.
  - destruct (env_contains p (world s)); cbn [negb world store trace] in *.
    + destruct (env_run p args (world s)) as [r w].
      eexists. split; [reflexivity|]. split; [reflexivity|].
      left. reflexivity.
    + rewrite Hc. destruct (env_install p (world s)) as [[e|[]] w2].
      * eexists. split; [reflexivity|]. split; [reflexivity|].
        right. split; [reflexivity|]. eexists. reflexivity.
      * cbn [world store trace].
        destruct (env_run p args w2) as [r w].
        eexists. cbn [snd trace]. rewrite <- !app_assoc.
        split; [reflexivity|]. split; [reflexivity|]. left. reflexivity.
  - destruct (env_create p (world s)) as [[e|[]] w1]; rewrite Hc.
    + eexists. split; [reflexivity|]. split; [reflexivity|].
      right. split; [reflexivity|]. eexists. reflexivity.
    + destruct (env_contains p w1); cbn [negb].
      * cbn [world store trace].
        destruct (env_run p args w1) as [r w].
        eexists. cbn [snd trace]. rewrite <- !app_assoc.
        split; [reflexivity|]. split; [reflexivity|]. left. reflexivity.
      * destruct (env_install p w1) as [[e|[]] w2].
        -- eexists. split; [reflexivity|]. split; [reflexivity|].
           right. split; [reflexivity|]. eexists. reflexivity.
        -- cbn [world store trace].
           destruct (env_run p args w2) as [r w].
           eexists. cbn [snd trace]. rewrite <- !app_assoc.
           split; [reflexivity|]. split; [reflexivity|]. left. reflexivity.
Qed.

Lemma run_step_events pipeline (project : Project) command subcommand s :
  exists evs,
    trace (Pipeline.run_step pipeline project command subcommand s).2 =
      trace s ++ evs /\
    opened evs = [] /\
    ((exists arg, ran evs = [(project, [command; "--typeo"; arg])] /\
                  String.prefix (path pipeline) arg = true) \/
     (ran evs = [] /\
      exists e, (Pipeline.run_step pipeline project command subcommand s).1
                  = inl e)).
Proof.
  remember (Pipeline.run_step pipeline project command subcommand s)
    as res eqn:Hres.
  unfold Pipeline.run_step, bind at 1 in Hres.
  destruct (quiet_typeo_arg pipeline command subcommand s) as (_ & Ht & _).
  pose proof (typeo_arg_outcome pipeline command subcommand s) as Hout.
  destruct (Pipeline.typeo_arg pipeline command subcommand s)
    as [[e|arg] s1]; cbn in Ht, Hout.
  - subst res. exists []. rewrite app_nil_r. cbn. split; [exact Ht|].
    split; [reflexivity|]. right. split; [reflexivity|]. eexists. reflexivity.
  - unfold bind in Hres.
    destruct (project_run_events project [command; "--typeo"; arg] s1)
      as (evs & Hrun & Hopened & Hran).
    exists evs. rewrite <- Ht.
    destruct (Project.run project [command; "--typeo"; arg] s1)
      as [[e|out] s2]; subst res; cbn in Hrun, Hran |- *.
    + split; [exact Hrun|]. split; [exact Hopened|].
      destruct Hran as [Hran|[Hran _]].
      * left. exists arg. split; assumption.
      * right. split; [exact Hran|]. eexists. reflexivity.
    + split; [exact Hrun|]. split; [exact Hopened|].
      destruct Hran as [Hran|[_ [e He]]]; [|discriminate He].
      left. exists arg. split; assumption.
Qed.

(** X17. [run_step] opens no file and hands at most one command to the
    environment manager: the step's command, then the flag [--typeo],
    then an override argument that begins with the pipeline's path, run
    for the sub-project it was given.  It hands over none only when it
    fails before. *)
Theorem run_step_calls pipeline (project : Project) command subcommand s :
  exists evs,
    trace (Pipeline.run_step pipeline project command subcommand s).2 =
      trace s ++ evs /\
    opened evs = [] /\
    ((exists arg, ran evs = [(project, [command; "--typeo"; arg])] /\
                  String.prefix (path pipeline) arg = true) \/
     (ran evs = [] /\
      exists e, (Pipeline.run_step pipeline project command subcommand s).1
                  = inl e)).
Proof. apply run_step_events. Qed.

Lemma run_body_commands pipeline step s :
  exists evs,
    trace (Cli.run_body pipeline step s).2 = trace s ++ evs /\
    (commands evs = command_of step \/
     (commands evs = [] /\ exists e, (Cli.run_body pipeline step s).1 = inl e)).
Proof.
  remember (Cli.run_body pipeline step s) as res eqn:Hres.
  unfold Cli.run_body in Hres. unfold command_of.
  destruct step as [| | | |st|];
    try (subst res; exists []; rewrite app_nil_r; split; [reflexivity|];
         left; reflexivity).
  destruct (Cli.parse_step st) as [e|[[component command] subcommand]].
  { subst res. exists []. rewrite app_nil_r. split; [reflexivity|].
    left. reflexivity. }
  unfold bind at 1, Pipeline.create_project in Hres.
  pose proof (trace_project_init (joinpath (path pipeline) component) s)
    as Hinit.
  destruct (Project.__post_init__ _ s) as [[e|project] s1]; cbn in Hinit.
  { subst res. eexists. split; [exact Hinit|]. right. split; [reflexivity|].
    eexists. reflexivity. }
  unfold bind at 1 in Hres.
  destruct (run_step_events pipeline project command subcommand s1)
    as (evs & Hstep & _ & Hran).
  destruct (Pipeline.run_step pipeline project command subcommand s1)
    as [[e|out] s2]; subst res; cbn in Hstep, Hran |- *.
  - eexists. rewrite Hstep, Hinit, <- app_assoc. split; [reflexivity|].
    rewrite commands_app. cbn [app].
    destruct Hran as [(arg & Hran & _)|[Hran _]].
    + left. unfold commands at 2. rewrite Hran. reflexivity.
    + right. unfold commands at 2. rewrite Hran.
      split; [reflexivity|]. eexists. reflexivity.
  - unfold logging_info, emit. cbn [snd trace].
    eexists. rewrite Hstep, Hinit, <- !app_assoc. split; [reflexivity|].
    left. rewrite !commands_app.
    destruct Hran as [(arg & Hran & _)|[_ [e He]]]; [|discriminate He].
    unfold commands at 2. rewrite Hran. reflexivity.
Qed.

(** X18. The commands a pipeline run hands to the environments are the
    commands of the steps it began, one per step and in the declared
    order; when the run succeeds they are the commands of all the
    steps. *)
Theorem pipeline_commands_run_in_order pipeline steps :
  forall s, exists n evs,
    n <= length steps /\
    trace (Cli.run_steps pipeline steps s).2 = trace s ++ evs /\
    commands evs = concat (map command_of (take n steps)) /\
    (forall s', Cli.run_steps pipeline steps s = (inr tt, s') ->
                n = length steps).
Proof.
  induction steps as [|step steps IHsteps]; intros s.
  - exists 0, []. rewrite app_nil_r. cbn. repeat split; lia.
  - destruct (run_body_commands pipeline step s) as (evs1 & Ht1 & Hc1).
    unfold Cli.run_steps in *. cbn [for_each]. unfold bind at 1 2.
    destruct (Cli.run_body pipeline step s) as [[e|[]] s1]; cbn in Ht1, Hc1.
    + destruct Hc1 as [Hc1|[Hc1 _]].
      * exists 1, evs1. cbn [snd length take map concat].
        rewrite take_0. cbn [map concat]. rewrite app_nil_r.
        split; [lia|]. split; [exact Ht1|]. split; [exact Hc1|].
        intros s' Heq. discriminate Heq.
      * exists 0, evs1. cbn [snd length take map concat].
        split; [lia|]. split; [exact Ht1|]. split; [exact Hc1|].
        intros s' Heq. discriminate Heq.
    + destruct Hc1 as [Hc1|[_ [e He]]]; [|discriminate He].
      destruct (IHsteps s1) as (n & evs & Hn & Ht & Hc & Hall).
      exists (S n), (evs1 ++ evs). cbn [length take map concat].
      split; [lia|]. split; [rewrite Ht, Ht1, app_assoc; reflexivity|].
      split.
      * rewrite commands_app, Hc1, Hc. reflexivity.
      * intros s' Heq. f_equal. eapply Hall, Heq.
Qed.
End end_to_end.

(** ** The further theorems at concrete inputs *)

Lemma construction_when_read_fails_witness :
  Project.__post_init__ "/nowhere" (Fake.init Sample.world) =
    (inl (ValueError
            "Project /nowhere has no associated 'pyproject.toml' at location /nowhere/pyproject.toml"),
     mkState [] Sample.world [EvOpen "/nowhere/pyproject.toml"]) /\
  Pipeline.__post_init__ "/nowhere" (Fake.init Sample.world) =
    (inl (ValueError
            "Pipeline /nowhere has no associated 'pyproject.toml' at location /nowhere/pyproject.toml"),
     mkState [] Sample.world [EvOpen "/nowhere/pyproject.toml"]).
Proof.
  refine (construction_when_read_fails "/nowhere" (Fake.init Sample.world)
            FileNotFoundError _).
  reflexivity.
Defined.

Lemma project_construction_reads_name_witness :
  exists self s',
    Project.__post_init__ "/p/a" (Fake.init Sample.world) = (inr self, s') /\
    path self = "/p/a" /\
    repr (store s') (TStr "a") (name self) /\
    repr (store s') (TTab (Sample.project_doc "a")) (_config self) /\
    keeps [] (store s').
Proof.
  refine (project_construction_reads_name "/p/a" (Fake.init Sample.world)
            (Sample.project_doc "a") (TStr "a") _ _); reflexivity.
Defined.

Lemma pinto_config_returns_copy_witness :
  exists l s',
    Project.pinto_config Cases.project_c Cases.state_c = (inr (VRef l), s') /\
    length (store Cases.state_c) <= l /\
    repr (store s') (TTab [("cuda", TBool true)]) (VRef l) /\
    keeps (store Cases.state_c) (store s').
Proof.
  refine (pinto_config_returns_copy Cases.project_c Cases.state_c
            Cases.configured_doc [("cuda", TBool true)] _ _).
  - solve_repr.
  - reflexivity.
Defined.

Lemma install_then_install_is_noop_witness :
  let s1 := (Project.install Sample.project_a true
               (Fake.init Sample.world)).2 in
  (Project.install Sample.project_a true (Fake.init Sample.world)).1
    = inr tt /\
  env_exists Sample.project_a (world s1) = true /\
  env_contains Sample.project_a (world s1) = true /\
  Project.install Sample.project_a false s1 =
    (inr tt, mkState (store s1) (world s1)
               (trace s1 ++ [EvLog (LogAlreadyInstalled Sample.project_a)])).
Proof.
  exact (install_then_install_is_noop (W:=Fake.t) Sample.project_a true
           (Fake.init Sample.world)).
Defined.

Lemma force_only_matters_when_installed_witness :
  Project.install Sample.project_a true (Fake.init Sample.world) =
  Project.install Sample.project_a false (Fake.init Sample.world).
Proof.
  refine (force_only_matters_when_installed (W:=Fake.t) Sample.project_a
            (Fake.init Sample.world) _).
  reflexivity.
Defined.

Lemma run_always_on_installed_witness :
  exists w evs,
    env_exists Sample.project_a w = true /\
    env_contains Sample.project_a w = true /\
    Project.run Sample.project_a ["build"] (Fake.init Cases.world) =
      ((env_run Sample.project_a ["build"] w).1,
       mkState [] (env_run Sample.project_a ["build"] w).2
         ([] ++ evs ++ [EvRun Sample.project_a ["build"]])) /\
    ran evs = [] /\ creates evs = 0 /\ installs evs = 0 /\
    (w = Cases.world /\ evs = []).
Proof.
  exact (run_always_on_installed (W:=Fake.t) Sample.project_a ["build"]
           (Fake.init Cases.world)).
Defined.

Lemma run_aborts_when_install_fails_witness :
  let s := mkState [] Cases.Down [] in
  Project.run Sample.project_a ["build"] s =
    (inl (ExternalError "no environment tool"),
     (Project.install Sample.project_a false s).2) /\
  ran (events_of (Project.run Sample.project_a ["build"]) s) = [].
Proof.
  refine (run_aborts_when_install_fails (W:=Cases.down) Sample.project_a
            ["build"] (mkState [] Cases.Down [])
            (ExternalError "no environment tool") _ _); reflexivity.
Defined.

Lemma parse_step_join_witness :
  Cli.parse_step "b:test:unit" = inr ("b", "test", Some "unit").
Proof.
  refine (parse_step_join "b" "test" (Some "unit") _).
  repeat constructor.
Defined.

Lemma parse_step_fields_rejoin_witness :
  join colon ["b"; "test"; "unit"] = "b:test:unit" /\
  Forall (fun f => has_char colon f = false) ["b"; "test"; "unit"].
Proof.
  refine (parse_step_fields_rejoin "b:test:unit" "b" "test" (Some "unit") _).
  reflexivity.
Defined.

Lemma run_executes_document_steps_witness :
  exists self s1,
    path self = "/p" /\
    repr (store s1) (TTab Sample.pipeline_doc) (_config self) /\
    world s1 = Sample.world /\
    trace s1 = [] ++ [EvOpen "/p/pyproject.toml"] /\
    Cli.run "/p" (Fake.init Sample.world) =
      Cli.run_steps self (map VStr ["a:build"; "b:test:unit"]) s1 /\
    (["a:build"; "b:test:unit"] = [] ->
     Cli.run "/p" (Fake.init Sample.world) = (inr tt, s1)).
Proof.
  refine (run_executes_document_steps "/p" (Fake.init Sample.world)
            Sample.pipeline_doc ["a:build"; "b:test:unit"] _ _ _).
  - reflexivity.
  - reflexivity.
  - eexists. reflexivity.
Defined.

(** * Outcomes by the shape of the document *)

Lemma tget_error t k e : tget t k = inl e -> e = TypeError \/ e = KeyError k.
Proof.
  destruct t as [s|z|b|x|items|entries]; cbn;
    try (intros [= <-]; left; reflexivity).
  destruct (toml_get entries k); [discriminate|].
  intros [= <-]. right. reflexivity.
Qed.

Section document_shapes.
Context {W : Type} `{Host W} `{Environment W}.
Implicit Types (s : state W).

(** C10 (amended). When the descriptor file exists and the document has
    no entry at [tool.poetry.name], constructing the [Project] fails with
    the raw error of the unguarded lookup: the [KeyError] of the first key
    that a table on the way lacks, or the [TypeError] of subscripting an
    entry on the way that is not a table.  In no case is it one of the
    [ValueError]s that stand for a missing descriptor or a missing
    table. *)
Theorem project_without_name_raises_raw_error path0 s es e :
  read_toml (joinpath (abspath path0) "pyproject.toml") (world s) = inr es ->
  tpath (TTab es) name_path = inl e ->
  (Project.__post_init__ path0 s).1 = inl e /\
  (e = KeyError "tool" \/ e = KeyError "poetry" \/ e = KeyError "name" \/
   e = TypeError) /\
  (forall msg, e <> ValueError msg).
Proof.
  intros Hread He.
  destruct (project_init_spec path0 s es Hread) as (ext & v & _ & Hspec).
  cbv zeta in Hspec. rewrite He in Hspec. rewrite Hspec. cbn [fst].
  split; [reflexivity|].
  assert (Hshape : e = KeyError "tool" \/ e = KeyError "poetry" \/
                   e = KeyError "name" \/ e = TypeError).
  { unfold name_path in He. cbn [tpath] in He.
    destruct (tget (TTab es) "tool") as [e1|t1] eqn:H1.
    { injection He as <-. destruct (tget_error _ _ _ H1) as [->| ->]; auto. }
    destruct (tget t1 "poetry") as [e2|t2] eqn:H2.
    { injection He as <-. destruct (tget_error _ _ _ H2) as [->| ->]; auto. }
    destruct (tget t2 "name") as [e3|t3] eqn:H3; [|discriminate He].
    injection He as <-. destruct (tget_error _ _ _ H3) as [->| ->]; auto. }
  split; [exact Hshape|].
  intros msg ->. destruct Hshape as [Hs|[Hs|[Hs|Hs]]]; discriminate Hs.
Qed.

(** [pinto_config] when there is an entry at [tool.pinto]: the outcome is
    that of copying the entry. *)
Lemma pinto_config_present (self : Project) s es t :
  repr (store s) (TTab es) (_config self) ->
  tpath (TTab es) pinto_path = inr t ->
  exists d v,
    let s1 := mkState (store s ++ [ODict d]) (world s) (trace s) in
    repr (store s1) t v /\
    Project.pinto_config self s = py_copy v s1.
Proof.
  intros Hr Hp.
  destruct (config_spec self s es Hr) as (d & Hc & Hr').
  unfold pinto_path in Hp. cbn [tpath] in Hp.
  pose proof (getitem_tget _ _ _ "tool" Hr') as H1.
  destruct (tget (TTab es) "tool") as [e|t1]; [discriminate Hp|].
  destruct H1 as (v1 & Hg1 & Hr1).
  pose proof (getitem_tget _ _ _ "pinto" Hr1) as H2.
  destruct (tget t1 "pinto") as [e|t2]; [discriminate Hp|].
  injection Hp as ->.
  destruct H2 as (v2 & Hg2 & Hr2).
  exists d, v2. cbv zeta. split; [exact Hr2|].
  unfold Project.pinto_config.
  unfold bind at 1, attempt at 1, bind at 1. rewrite Hc.
  unfold bind at 1, read at 1. cbn [store]. rewrite Hg1.
  unfold bind at 1, read at 1. cbn [store]. rewrite Hg2.
  pose proof (py_copy_error (W:=W) v2
                (mkState (store s ++ [ODict d]) (world s) (trace s))) as Herr.
  destruct (py_copy v2 _) as [[e|v] s2]; cbn in Herr |- *.
  - rewrite (Herr e eq_refl). reflexivity.
  - reflexivity.
Qed.

Lemma pinto_config_copies_entry (self : Project) s es t :
  repr (store s) (TTab es) (_config self) ->
  tpath (TTab es) pinto_path = inr t ->
  match t with
  | TTab entries =>
      exists l s2,
        Project.pinto_config self s = (inr (VRef l), s2) /\
        repr (store s2) (TTab entries) (VRef l) /\
        length (store s) <= l
  | TArr items =>
      exists l s2,
        Project.pinto_config self s = (inr (VRef l), s2) /\
        repr (store s2) (TArr items) (VRef l) /\
        length (store s) <= l
  | _ => (Project.pinto_config self s).1 = inl AttributeError
  end.
Proof.
  intros Hr Hp.
  destruct (pinto_config_present self s es t Hr Hp) as (d & v2 & Hv2 & Hcfg).
  cbv zeta in Hv2, Hcfg. rewrite Hcfg. cbn [store] in Hv2.
  destruct t as [x|z|b|x|items|entries]; cbn in Hv2;
    try (subst v2; reflexivity).
  - destruct Hv2 as (l & vs & -> & Hl & Hvs).
    unfold py_copy. cbn [store]. rewrite Hl. unfold alloc.
    cbn [store world trace].
    eexists _, _. split; [reflexivity|]. cbn [store]. split.
    + apply repr_TArr. eexists _, vs. split; [reflexivity|]. split.
      * rewrite lookup_app_r by lia. rewrite Nat.sub_diag. reflexivity.
      * eapply repr_items_keeps; [apply keeps_app | exact Hvs].
    + rewrite length_app. lia.
  - destruct Hv2 as (l & d2 & -> & Hl & Hd2).
    unfold py_copy. cbn [store]. rewrite Hl. unfold alloc.
    cbn [store world trace].
    eexists _, _. split; [reflexivity|]. cbn [store]. split.
    + apply repr_TTab. eexists _, d2. split; [reflexivity|]. split.
      * rewrite lookup_app_r by lia. rewrite Nat.sub_diag. reflexivity.
      * eapply repr_entries_keeps; [apply keeps_app | exact Hd2].
    + rewrite length_app. lia.
Qed.

(** C9 (amended). For a project constructed over an existing descriptor:
    when the document has no entry at [tool.pinto], reading
    [pinto_config] raises nothing and returns an empty mapping, a new
    object of its own.  An entry that is there is copied, whatever it is:
    a table or an array comes back as a new object with the same members,
    and a scalar, which has no [copy], makes the read raise
    [AttributeError]. *)
Theorem pinto_config_by_entry path0 s es self s1 :
  read_toml (joinpath (abspath path0) "pyproject.toml") (world s) = inr es ->
  Project.__post_init__ path0 s = (inr self, s1) ->
  match tpath (TTab es) pinto_path with
  | inl _ =>
      exists l s2,
        Project.pinto_config self s1 = (inr (VRef l), s2) /\
        store s2 !! l = Some (ODict []) /\
        length (store s1) <= l
  | inr (TTab entries) =>
      exists l s2,
        Project.pinto_config self s1 = (inr (VRef l), s2) /\
        repr (store s2) (TTab entries) (VRef l) /\
        length (store s1) <= l
  | inr (TArr items) =>
      exists l s2,
        Project.pinto_config self s1 = (inr (VRef l), s2) /\
        repr (store s2) (TArr items) (VRef l) /\
        length (store s1) <= l
  | inr _ => (Project.pinto_config self s1).1 = inl AttributeError
  end.
Proof.
  intros Hread Hinit.
  destruct (project_init_spec path0 s es Hread) as (ext & v & Hrepr & Hspec).
  cbv zeta in Hspec.
  destruct (tpath (TTab es) name_path) as [e|tn] eqn:Hname.
  { rewrite Hspec in Hinit. discriminate Hinit. }
  assert (Hr1 : repr (store s1) (TTab es) (_config self)).
  { destruct Hspec as (n & Heq & _). rewrite Heq in Hinit.
    injection Hinit as <- <-. exact Hrepr. }
  clear Hspec Hrepr Hinit.
  destruct (tpath (TTab es) pinto_path) as [e|t] eqn:Hp.
  - assert (Hlacks : lacks (TTab es) pinto_path).
    { unfold lacks. rewrite Hp.
      unfold name_path in Hname. unfold pinto_path in Hp.
      cbn [tpath] in Hname, Hp.
      destruct (tget (TTab es) "tool") as [e1|t1]; [discriminate Hname|].
      destruct (tget t1 "pinto") as [e2|t2] eqn:H2; [|discriminate Hp].
      injection Hp as <-.
      destruct (tget_error _ _ _ H2) as [->| ->]; [|eexists; reflexivity].
      destruct t1; cbn in Hname, H2; try discriminate Hname.
      destruct (toml_get entries "pinto"); discriminate H2. }
    destruct (pinto_config_default self s1 es Hr1 Hlacks) as (d & Hd).
    eexists _, _. split; [exact Hd|]. cbn [store]. split; [|lia].
    rewrite lookup_app_r by lia.
    replace (S (length (store s1)) - length (store s1)) with 1 by lia.
    reflexivity.
  - pose proof (pinto_config_copies_entry self s1 es t Hr1 Hp) as Hcopy.
    destruct t; exact Hcopy.
Qed.
End document_shapes.

(** C7 (as stated) fails.  With [tool.pinto] a string there is no steps
    list, and construction raises the [TypeError] of subscripting the
    string, not the error that names the missing table; with [steps] and
    [typeo] both numbers there is neither a list nor a table, and
    construction succeeds. *)
Lemma pipeline_over_entries_that_are_not_tables :
  tpath (TTab Mistyped.stringy_pinto_doc) pinto_path = inr (TStr "x") /\
  (Pipeline.__post_init__ "/m1" (Fake.init Mistyped.world)).1
    = inl TypeError /\
  tpath (TTab Mistyped.numeric_doc) steps_path = inr (TInt 3) /\
  tpath (TTab Mistyped.numeric_doc) typeo_path = inr (TInt 3) /\
  (Pipeline.__post_init__ "/m2" (Fake.init Mistyped.world)).1
    = inr {| path := "/m2"; _config := VRef 2 |}.
Proof. repeat split. Qed.

(** C9 (as stated) fails.  With [tool.pinto] a number the configuration
    has no [pinto] sub-table and the read raises [AttributeError]; with
    [tool.pinto] an array it returns that array's members, not an empty
    mapping. *)
Lemma pinto_config_over_entries_that_are_not_tables :
  tpath (TTab Mistyped.numeric_pinto_doc) pinto_path = inr (TInt 3) /\
  ((p <- Project.__post_init__ "/m3" ;; Project.pinto_config p)
     (Fake.init Mistyped.world)).1 = inl AttributeError /\
  tpath (TTab Mistyped.array_pinto_doc) pinto_path
    = inr (TArr [TInt 1; TInt 2]) /\
  ((p <- Project.__post_init__ "/m4" ;;
    c <- Project.pinto_config p ;;
    read (fun h => py_iter h c))
     (Fake.init Mistyped.world)).1 = inr [VInt 1; VInt 2].
Proof. repeat split. Qed.

(** C10 (as stated) fails.  With [tool.poetry] a string the configuration
    has no name under [tool.poetry], and construction raises
    [TypeError], not [KeyError]. *)
Lemma project_over_poetry_that_is_not_a_table :
  tpath (TTab Mistyped.stringy_poetry_doc) ["tool"; "poetry"]
    = inr (TStr "x") /\
  (Project.__post_init__ "/m5" (Fake.init Mistyped.world)).1
    = inl TypeError /\
  forall k, (Project.__post_init__ "/m5" (Fake.init Mistyped.world)).1
            <> inl (KeyError k).
Proof. repeat split. discriminate. Qed.

(** * The pipeline run, step by step *)



Section step_by_step.
Context {W : Type} `{Host W} `{Environment W}.
Implicit Types (s : state W) (pipeline : ProjectBase).





End step_by_step.

(** ** These theorems at concrete inputs *)

Lemma pinto_config_by_entry_witness :
  exists l s2,
    Project.pinto_config Sample.project_a Sample.state_a = (inr (VRef l), s2) /\
    store s2 !! l = Some (ODict []) /\
    length (store Sample.state_a) <= l.
Proof.
  refine (pinto_config_by_entry "/p/a" (Fake.init Sample.world)
            (Sample.project_doc "a") Sample.project_a Sample.state_a _ _);
    reflexivity.
Defined.

Lemma project_without_name_raises_raw_error_witness :
  (Project.__post_init__ "/n" (Fake.init Sample.world)).1
    = inl (KeyError "name") /\
  (KeyError "name" = KeyError "tool" \/ KeyError "name" = KeyError "poetry" \/
   KeyError "name" = KeyError "name" \/ KeyError "name" = TypeError) /\
  (forall msg, KeyError "name" <> ValueError msg).
Proof.
  refine (project_without_name_raises_raw_error "/n" (Fake.init Sample.world)
            Sample.anonymous_doc (KeyError "name") _ _); reflexivity.
Defined.
